(** * A shallow embedding of proxy-verify's verify.js

    JavaScript strings are modelled as lists of code units; the code units
    the model uses are the Latin-1 range, one [ascii] each.  Numbers that the
    source treats as counters or options are integers ([Z]); latencies, which
    the source obtains by dividing milliseconds by 1e3, are rationals ([Q]). *)

From Stdlib Require Import List Ascii String ZArith QArith Lia Bool Permutation DecimalString.
Import ListNotations.

Definition str := list ascii.

Definition s (x : string) : str := list_ascii_of_string x.

(** ** Characters *)

Definition code (c : ascii) : nat := nat_of_ascii c.

Definition in_range (lo hi : nat) (c : ascii) : bool :=
  (lo <=? code c)%nat && (code c <=? hi)%nat.

(** The regex class [0-9]. *)
Definition is_digit (c : ascii) : bool := in_range 48 57 c.

(** JavaScript's [String.prototype.trim] removes WhiteSpace and
    LineTerminator code units; in the Latin-1 range these are TAB, LF, VT,
    FF, CR, SPACE and NO-BREAK SPACE. *)
Definition is_js_ws (c : ascii) : bool :=
  in_range 9 13 c || (code c =? 32)%nat || (code c =? 160)%nat.

Fixpoint trim_start (l : str) : str :=
  match l with
  | [] => []
  | c :: r => if is_js_ws c then trim_start r else l
  end.

Definition trim (l : str) : str := rev (trim_start (rev (trim_start l))).

(** [String.prototype.split] on a one-character separator. *)
Fixpoint split_on (sep : ascii) (l : str) : list str :=
  match l with
  | [] => [[]]
  | c :: r =>
      if Ascii.eqb c sep then [] :: split_on sep r
      else match split_on sep r with
           | [] => [[c]]
           | w :: ws => (c :: w) :: ws
           end
  end.

(** ** The ip:port regular expression of [readProxies]

    [/^(25[0-5]|2[0-4][0-9]|[01]?[0-9][0-9]?)\.(...)\.(...)\.(...)\:[0-9]{1,5}$/]

    A backtracking regex test succeeds iff some way of matching exists; each
    piece is modelled by the list of all input suffixes it can leave. *)

(** [25[0-5]] *)
Definition alt_25x (l : str) : list str :=
  match l with
  | a :: b :: c :: r =>
      if in_range 50 50 a && in_range 53 53 b && in_range 48 53 c then [r] else []
  | _ => []
  end.

(** [2[0-4][0-9]] *)
Definition alt_2xx (l : str) : list str :=
  match l with
  | a :: b :: c :: r =>
      if in_range 50 50 a && in_range 48 52 b && is_digit c then [r] else []
  | _ => []
  end.

(** [[01]?] *)
Definition opt_01 (l : str) : list str :=
  match l with
  | a :: r => if in_range 48 49 a then [r; l] else [l]
  | [] => [l]
  end.

(** [[0-9]] *)
Definition one_digit (l : str) : list str :=
  match l with
  | a :: r => if is_digit a then [r] else []
  | [] => []
  end.

(** [[0-9]?] *)
Definition opt_digit (l : str) : list str :=
  match l with
  | a :: r => if is_digit a then [r; l] else [l]
  | [] => [l]
  end.

(** [[01]?[0-9][0-9]?] *)
Definition alt_short (l : str) : list str :=
  flat_map opt_digit (flat_map one_digit (opt_01 l)).

(** One octet group: [(25[0-5]|2[0-4][0-9]|[01]?[0-9][0-9]?)]. *)
Definition octet_ends (l : str) : list str :=
  alt_25x l ++ alt_2xx l ++ alt_short l.

(** A literal character. *)
Definition lit (ch : ascii) (l : str) : list str :=
  match l with
  | a :: r => if Ascii.eqb a ch then [r] else []
  | [] => []
  end.

(** [[0-9]{1,5}$] *)
Definition port_tail (l : str) : bool :=
  (1 <=? List.length l)%nat && (List.length l <=? 5)%nat && forallb is_digit l.

Definition octet_dot (l : str) : list str :=
  flat_map (lit "."%char) (octet_ends l).

Definition ip_port_test (l : str) : bool :=
  existsb port_tail
    (flat_map (lit ":"%char)
       (flat_map octet_ends
          (flat_map octet_dot (flat_map octet_dot (octet_dot l))))).

(** ** readProxies: validation and de-duplication

    [proxies.filter(function(proxy){ proxy = proxy.trim(); if (re.test(proxy)) return proxy; })]
    keeps the array ELEMENT whenever the callback's result is truthy; the
    trimmed string is only the callback's return value. *)
Definition validate (lines : list str) : list str :=
  filter (fun line => ip_port_test (trim line)) lines.

(** [Array.from(new Set(proxies))]: first occurrences, in order. *)
Fixpoint dedup_acc (seen : list str) (l : list str) : list str :=
  match l with
  | [] => []
  | x :: r =>
      if existsb (fun y => if list_eq_dec ascii_dec x y then true else false) seen
      then dedup_acc seen r
      else x :: dedup_acc (x :: seen) r
  end.

Definition dedup (l : list str) : list str := dedup_acc [] l.

(** [readFile] pushes [contents.split('\n')] of every file read. *)
Definition read_lines (blobs : list str) : list str :=
  flat_map (split_on (ascii_of_nat 10)) blobs.

Definition parse_proxies (blobs : list str) : list str :=
  dedup (validate (read_lines blobs)).


(** ** The candidate as [verifyProxy] reads it: [var [host, port] = proxy.split(':')] *)
Definition proxy_host (proxy : str) : str := nth 0 (split_on ":"%char proxy) [].
Definition proxy_port (proxy : str) : str := nth 1 (split_on ":"%char proxy) [].

(** The numeric value of a decimal digit string. *)
Definition dec_value (d : str) : Z :=
  fold_left (fun acc c => acc * 10 + (Z.of_nat (code c) - 48))%Z d 0%Z.

(** A well-formed octet of the regex: one to three digits, value at most 255. *)
Definition octet_ok (d : str) : Prop :=
  (1 <= List.length d <= 3)%nat /\ forallb is_digit d = true /\ (dec_value d <= 255)%Z.

(** A port of the regex: one to five digits. *)
Definition port_ok (d : str) : Prop :=
  (1 <= List.length d <= 5)%nat /\ forallb is_digit d = true.

(** ** The constructor [Verify(options)] *)

Open Scope Z_scope.

(** The options the claims depend on; [None] is an absent (undefined)
    property.  Numeric options are integers. *)
Record options := {
  opt_url : option str;
  opt_workers : option Z;
  opt_concurrentRequests : option Z;
  opt_requestTimeout : option Z;
  opt_strictEnforceTimeout : option bool
}.

Definition no_options : options := Build_options None None None None None.

(** JavaScript's [a || b]: [a] when truthy, [b] otherwise ([0], [false],
    [''] and [undefined] are falsy). *)
Definition js_or_num (a : option Z) (b : Z) : Z :=
  match a with Some z => if Z.eqb z 0 then b else z | None => b end.

Definition js_or_bool (a : option bool) (b : bool) : bool :=
  match a with Some true => true | _ => b end.

Definition js_or_str (a : option str) (b : str) : str :=
  match a with Some ((_ :: _) as x) => x | _ => b end.

Record verify := {
  url : str;
  workers : Z;
  concurrentRequests : Z;
  requestTimeout : Z;
  strictEnforceTimeout : bool
}.

(** [cpus] is [require('os').cpus().length]. *)
Definition new_verify (o : options) (cpus : Z) : verify :=
  let url := js_or_str (opt_url o) (s "http://digg.com/") in
  let workers0 := js_or_num (opt_workers o) cpus in
  (* if (this.workers > 4) this.workers = 4; *)
  let workers := if 4 <? workers0 then 4 else workers0 in
  let concurrent0 := js_or_num (opt_concurrentRequests o) (workers * 30) in
  let requestTimeout := js_or_num (opt_requestTimeout o) 10000 in
  (* this.strictEnforceTimeout = options.strictEnforceTimeout || true; *)
  let strict := js_or_bool (opt_strictEnforceTimeout o) true in
  (* if (this.workers > this.concurrentRequests) this.concurrentRequests = this.workers; *)
  let concurrent := if concurrent0 <? workers then workers else concurrent0 in
  {| url := url; workers := workers; concurrentRequests := concurrent;
     requestTimeout := requestTimeout; strictEnforceTimeout := strict |}.

(** ** The master: scheduling and aggregation *)

(** The message a worker sends back ([data] of [verifiedProxy]):
    [o_err] is [data.err] ([None] for [null]) and [o_latency] is the value
    the master pushes, [(now - data.duration) / 1e3]. *)
Record outcome := {
  o_proxy : str;
  o_err : option str;
  o_latency : Q
}.

Definition ok (d : outcome) : bool :=
  match o_err d with None => true | Some _ => false end.

Record stats := {
  good : Z;
  bad : Z;
  total : Z;
  done : Z;
  responses : list Q
}.

(** What the branch [_stats.done == _stats.total] does: either it logs
    "No verified proxies" and returns, or it computes [_stats.avg] and calls
    [saveProxies], which writes [_verifiedProxies] to the output file.
    The average is kept exact; [toFixed(2)] only formats it. *)
Inductive final :=
| NoVerified
| Saved (avg : Q) (written : list str).

(** [responses.reduce((a, b) => a + b)] without an initial value; it is
    only reached with [good >= 1], i.e. on a non-empty array. *)
Definition js_sum (l : list Q) : Q :=
  match l with [] => 0 | x :: r => fold_left Qplus r x end.

Definition finish (st : stats) (verified : list str) : final :=
  if good st <? 1 then NoVerified
  else Saved (js_sum (responses st) / inject_Z (good st)) verified.

Record master := {
  m_proxies : list str;        (* this._proxies, the dispatch queue *)
  m_verified : list str;       (* this._verifiedProxies *)
  m_stats : stats;             (* this._stats *)
  m_conc : Z;                  (* this.concurrentRequests after readProxies *)
  m_final : option final       (* the DONE branch, once taken *)
}.

(** [dispatchRequest(id)]: the proxy sent to worker [id], if any.  The
    target worker does not matter to the counts and is left out. *)
Definition dispatch_request (m : master) : master * option str :=
  match m_proxies m with
  | [] => (m, None)
  | p :: ps =>
      ({| m_proxies := ps; m_verified := m_verified m; m_stats := m_stats m;
          m_conc := m_conc m; m_final := m_final m |}, Some p)
  end.

(** The master's handler of a [verifiedProxy] message.  [this.regex] is
    taken as unset: with a regex, every success also runs
    [new RegExp(_this.regex)], which throws in the master on an invalid
    pattern, and counts matches in [_stats.regex]; that branch is not
    modelled, so the properties of the master below hold for runs without
    a regex. *)
Definition on_verified (m : master) (d : outcome) : master * option str :=
  let st := m_stats m in
  let done' := done st + 1 in
  let '(verified', good', bad', responses') :=
    match o_err d with
    | None => (m_verified m ++ [o_proxy d], good st + 1, bad st, responses st ++ [o_latency d])
    | Some _ => (m_verified m, good st, bad st + 1, responses st)
    end in
  let st' := {| good := good'; bad := bad'; total := total st; done := done';
                responses := responses' |} in
  if done' =? total st then
    ({| m_proxies := m_proxies m; m_verified := verified'; m_stats := st';
        m_conc := m_conc m; m_final := Some (finish st' verified') |}, None)
  else
    dispatch_request {| m_proxies := m_proxies m; m_verified := verified'; m_stats := st';
                        m_conc := m_conc m; m_final := m_final m |}.

(** The loop of [startWorkers]: returns the remaining queue and the proxies
    sent, in order. *)
Fixpoint start_loop (inProgress conc : Z) (q : list str) : list str * list str :=
  match q with
  | [] => ([], [])
  | p :: r =>
      if inProgress <? conc then
        let '(q', sent) := start_loop (inProgress + 1) conc r in (q', p :: sent)
      else (q, [])
  end.

(** The [readProxies] listener of [main], then [startWorkers(proxies)]. *)
Definition on_read_proxies (v : verify) (proxies : list str) : master * list str :=
  let n := Z.of_nat (List.length proxies) in
  let conc := if n <? concurrentRequests v then n else concurrentRequests v in
  let '(q, sent) := start_loop 0 conc proxies in
  ({| m_proxies := q; m_verified := [];
      m_stats := {| good := 0; bad := 0; total := n; done := 0; responses := [] |};
      m_conc := conc; m_final := None |}, sent).

(** The whole system: the master and the proxies whose probes are running
    in the workers. *)
Record world := {
  w_master : master;
  w_inflight : list str
}.

Definition init_world (v : verify) (proxies : list str) : world :=
  let '(m, sent) := on_read_proxies v proxies in
  {| w_master := m; w_inflight := sent |}.

Definition opt_list {A} (o : option A) : list A :=
  match o with Some x => [x] | None => [] end.

(** One probe resolves: its worker's message is handled by the master, and
    the proxy dispatched in reply, if any, starts its probe. *)
Inductive resolve : world -> outcome -> world -> Prop :=
| resolve_probe w pre post d m' disp :
    w_inflight w = pre ++ o_proxy d :: post ->
    on_verified (w_master w) d = (m', disp) ->
    resolve w d {| w_master := m'; w_inflight := pre ++ post ++ opt_list disp |}.

(** The runs from [w0]; the list records the messages in arrival order. *)
Inductive run (w0 : world) : list outcome -> world -> Prop :=
| run_start : run w0 [] w0
| run_step tr w d w' : run w0 tr w -> resolve w d w' -> run w0 (tr ++ [d]) w'.

(** ** One probe in a worker: [verifyProxy(proxy)] *)

(** What [returnBroadcast] sends to the master. *)
Inductive verdict :=
| VOk                      (* err: null *)
| VErr (errcode : str).    (* err: {code: ...} *)

(** The callbacks that can run for one request: the strict timer, the
    response's ['end'], the request's ['error'] and the response's idle
    ['timeout'] (whose handler aborts and reports nothing). *)
Inductive probe_event :=
| EvTimer
| EvResponseEnd
| EvError (errcode : str)
| EvResTimeout.

Record probe := {
  p_returned : bool;       (* the closure variable [returned] *)
  p_timer : bool;          (* the strict timer is armed *)
  p_aborted : bool;
  p_sent : list verdict    (* messages sent to the master, in order *)
}.

Definition verify_proxy_init (v : verify) : probe :=
  {| p_returned := false; p_timer := strictEnforceTimeout v; p_aborted := false;
     p_sent := [] |}.

Definition return_broadcast (p : probe) (msg : verdict) : probe :=
  if p_returned p then p
  else {| p_returned := true; p_timer := p_timer p; p_aborted := p_aborted p;
          p_sent := p_sent p ++ [msg] |}.

Definition clear_timeout (p : probe) : probe :=
  {| p_returned := p_returned p; p_timer := false; p_aborted := p_aborted p;
     p_sent := p_sent p |}.

Definition abort (p : probe) : probe :=
  {| p_returned := p_returned p; p_timer := p_timer p; p_aborted := true;
     p_sent := p_sent p |}.

Definition probe_step (p : probe) (ev : probe_event) : probe :=
  match ev with
  | EvTimer =>
      (* a cleared timer never fires *)
      if p_timer p
      then return_broadcast (abort (clear_timeout p)) (VErr (s "STRICT_TIMEOUT"))
      else p
  | EvResponseEnd => return_broadcast (clear_timeout p) VOk
  | EvError c => return_broadcast (clear_timeout p) (VErr c)
  | EvResTimeout => abort p
  end.

Definition probe_run (p : probe) (evs : list probe_event) : probe :=
  fold_left probe_step evs p.

(** ** The request of a probe *)

Fixpoint strip_prefix (pre l : str) : option str :=
  match pre, l with
  | [], _ => Some l
  | a :: pre', b :: l' => if Ascii.eqb a b then strip_prefix pre' l' else None
  | _ :: _, [] => None
  end.

(** The options object passed to [http.get]. *)
Record http_request := {
  rq_host : str;
  rq_port : str;
  rq_method : str;
  rq_path : str;
  rq_header_host : option str;
  rq_user_agent : str
}.

Section Request.

(** [url_hostname u] is [url.parse(u).hostname], computed by Node's [url]
    module, outside this repository; [None] is [null]. *)
Variable url_hostname : str -> option str.

(** The options object [verifyProxy(proxy)] passes to [http.get], with
    [var [host, port] = proxy.split(':')],
    [var headerHost = url.parse(_this.url).hostname]; [ua] is the value of
    [_this.userAgent()]. *)
Definition verify_request (v : verify) (proxy ua : str) : http_request :=
  {| rq_host := proxy_host proxy; rq_port := proxy_port proxy;
     rq_method := s "GET"; rq_path := url v;
     rq_header_host := url_hostname (url v); rq_user_agent := ua |}.

End Request.

(** ** The invariant of a run

    Along every run from [init_world v proxies], with [tr] the messages
    handled so far. *)
Definition run_inv (v : verify) (proxies : list str) (tr : list outcome) (w : world) : Prop :=
  let n := Z.of_nat (List.length proxies) in
  let m := w_master w in
  let st := m_stats m in
  total st = n /\
  done st = Z.of_nat (List.length tr) /\
  good st + bad st = done st /\
  good st = Z.of_nat (List.length (filter ok tr)) /\
  m_verified m = map o_proxy (filter ok tr) /\
  responses st = map o_latency (filter ok tr) /\
  m_conc m = Z.min (concurrentRequests v) n /\
  (exists k, m_proxies m = skipn k proxies) /\
  Z.of_nat (List.length (w_inflight w) + List.length (m_proxies m)) + done st = n /\
  match m_final m with
  | None => done st < n \/ tr = []
  | Some f => done st = n /\ f = finish st (m_verified m)
  end.

(** ** A concrete run: two candidates, one success then one error *)

Definition demo_v : verify := new_verify no_options 1.

Definition demo_proxies : list str := [s "1.2.3.4:8080"; s "9.9.9.9:3128"].

Definition demo_w0 : world := init_world demo_v demo_proxies.

Definition demo_d1 : outcome :=
  {| o_proxy := s "1.2.3.4:8080"; o_err := None; o_latency := 1 # 2 |}.

Definition demo_d2 : outcome :=
  {| o_proxy := s "9.9.9.9:3128"; o_err := Some (s "ECONNRESET"); o_latency := 3 # 1 |}.

Definition demo_w1 : world :=
  let '(m', disp) := on_verified (w_master demo_w0) demo_d1 in
  {| w_master := m'; w_inflight := [] ++ [s "9.9.9.9:3128"] ++ opt_list disp |}.

Definition demo_w2 : world :=
  let '(m', disp) := on_verified (w_master demo_w1) demo_d2 in
  {| w_master := m'; w_inflight := [] ++ [] ++ opt_list disp |}.

(** Before the first report nothing was sent; afterwards exactly one
    message was. *)
Definition probe_inv (p : probe) : Prop :=
  (p_returned p = false /\ p_sent p = []) \/
  (p_returned p = true /\ List.length (p_sent p) = 1%nat).

(** A CR-LF file: [split('\n')] leaves a trailing CR on the line. *)
Definition crlf_blob : str :=
  s "1.2.3.4:8080" ++ [ascii_of_nat 13; ascii_of_nat 10] ++ s "1.2.3.4:8080".

Definition five_proxies : list str :=
  [s "1.1.1.1:80"; s "2.2.2.2:80"; s "3.3.3.3:80"; s "4.4.4.4:80"; s "5.5.5.5:80"].


(** ** saveProxies, dateStamp and the [{date}] paths *)

Definition newline : ascii := ascii_of_nat 10.

(** [Array.prototype.join(sep)] on strings. *)
Definition js_join (sep : str) (l : list str) : str :=
  match l with
  | [] => []
  | x :: r => x ++ List.concat (map (fun y => sep ++ y) r)
  end.

(** [String(path).replace("{date}", stamp)]: a string pattern is replaced at
    its first occurrence only.  The replacement is a date stamp, which holds
    no ['$'], so it is inserted literally. *)
Fixpoint replace_first (pat rep l : str) : str :=
  match strip_prefix pat l with
  | Some rest => rep ++ rest
  | None => match l with [] => [] | c :: r => c :: replace_first pat rep r end
  end.

Definition date_pat : str := s "{date}".

(** [dateStamp(dateObj)], from [iso = dateObj.toISOString()]:
    [iso.split('T')[0].split('-').reverse().join('-')]. *)
Definition date_stamp (iso : str) : str :=
  js_join (s "-") (rev (split_on "-"%char (nth 0 (split_on "T"%char iso) []))).

(** [saveProxies]: the path written and the file's contents. *)
Definition save_proxies (outputFile stamp : str) (verified : list str) : str * str :=
  (replace_first date_pat stamp outputFile, js_join [newline] verified).

(** The file system as [readProxies] sees it: a path is a file with its
    contents, a directory with its entry names, or absent. *)
Inductive fs_entry :=
| FileE (contents : str)
| DirE (names : list str).







(** ** Worker selection *)

(** [broadcastToWorkers(id, cmd, data)]: [ids] is [Object.keys(cluster.workers)]
    and [id] is [None] for [false].  The result lists the workers sent to, in
    order; the returned count is its length. *)
Definition broadcast_to_workers (ids : list Z) (id : option Z) : list Z :=
  match id with
  | Some i => if negb (i =? 0) && existsb (Z.eqb i) ids then [i] else ids
  | None => ids
  end.

(** The ids of the workers [main] forks: [cluster.fork()] numbers them 1, 2, ... *)
Definition forked_ids (nworkers : Z) : list Z :=
  map Z.of_nat (seq 1 (Z.to_nat nworkers)).

(** The loop of [startWorkers] with the worker each proxy is addressed to:
    [lastWorker = lastWorker > this.workers ? 1 : lastWorker;
     this.broadcastToWorkers(lastWorker++, 'verifyProxy', proxy);] *)
Fixpoint start_workers_loop (nworkers lastWorker inProgress conc : Z) (q : list str)
  : list str * list (Z * str) :=
  match q with
  | [] => ([], [])
  | p :: r =>
      if inProgress <? conc then
        let target := if nworkers <? lastWorker then 1 else lastWorker in
        let '(q', sent) := start_workers_loop nworkers (target + 1) (inProgress + 1) conc r in
        (q', (target, p) :: sent)
      else (q, [])
  end.

(** ** runTime *)

(** [String(n)] of an integer. *)
Definition num (n : Z) : str :=
  list_ascii_of_string (DecimalString.NilEmpty.string_of_int (Z.to_int n)).

Record elapsed := {
  e_days : Z;
  e_hours : Z;
  e_mins : Z;
  e_secs : Z;
  e_ms : Z
}.

(** The [elapsed] object of [runTime] for [millisecondDiff = diff]; on
    positive integers [%] is [Z.rem] and [Math.floor(a / b)] is [Z.div]. *)
Definition elapsed_of (diff : Z) : elapsed :=
  if 0 <? diff then
    let ms := Z.rem diff 1000 in
    let t := diff / 1000 in
    let days := t / 86400 in
    let t := Z.rem t 86400 in
    let hours := t / 3600 in
    let t := Z.rem t 3600 in
    let mins := t / 60 in
    let t := Z.rem t 60 in
    {| e_days := days; e_hours := hours; e_mins := mins; e_secs := t; e_ms := ms |}
  else {| e_days := 0; e_hours := 0; e_mins := 0; e_secs := 0; e_ms := diff |}.

Section RunTime.

(** [chalk.bold(x)], applied to [String(x)]. *)
Variable bold : str -> str.

Definition run_time (diff : Z) : str :=
  let e := elapsed_of diff in
  let showMs := negb (0 <? e_days e) && negb (0 <? e_hours e) in
  (if 0 <? e_days e then bold (num (e_days e)) ++ s "d " else []) ++
  (if 0 <? e_hours e then bold (num (e_hours e)) ++ s "h " else []) ++
  (if 0 <? e_mins e then bold (num (e_mins e)) ++ s "m " else []) ++
  (if (0 <? e_secs e) && showMs || (e_secs e =? 0) && (0 <? e_ms e)
   then bold (num (e_secs e)) ++ s "." ++ bold (num (e_ms e)) ++ s "s"
   else if 0 <? e_secs e then bold (num (e_secs e)) ++ s "s" else []).

End RunTime.

(** ** userAgent *)

Definition agents : list str := map s [
  "Mozilla/5.0 (X11; Linux x86_64) AppleWebKit/537.36 (KHTML, like Gecko) Chrome/46.0.2490.80 Safari/537.36";
  "Mozilla/5.0 (Linux; Android 4.4.2; SM-G900I Build/KOT49H) AppleWebKit/537.36 (KHTML, like Gecko) Version/4.0 Chrome/30.0.0.0 Mobile Safari/537.36 [FB_IAB/FB4A;FBAV/52.0.0.12.18;]";
  "Mozilla/5.0 (Linux; Android 4.2.2; en-za; SAMSUNG GT-I9190 Build/JDQ39) AppleWebKit/535.19 (KHTML, like Gecko) Version/1.0 Chrome/18.0.1025.308 Mobile Safari/535.19";
  "Mozilla/5.0 (Linux; Android 5.1.1; SM-N910G Build/LMY47X) AppleWebKit/537.36 (KHTML, like Gecko) Chrome/46.0.2490.76 Mobile Safari/537.36";
  "Mozilla/5.0 (Linux; Android 4.4.2; en-za; SAMSUNG SM-G800H Build/KOT49H) AppleWebKit/537.36 (KHTML, like Gecko) Version/1.6 Chrome/28.0.1500.94 Mobile Safari/537.36";
  "Mozilla/5.0 (Linux; Android 4.4.2; HS-U961 Build/KOT49H) AppleWebKit/537.36 (KHTML, like Gecko) Version/4.0 Chrome/30.0.0.0 Mobile Safari/537.36";
  "Mozilla/5.0 (iPad; CPU OS 9_1 like Mac OS X) AppleWebKit/601.1.46 (KHTML, like Gecko) Version/9.0 Mobile/13B143 Safari/601.1";
  "Mozilla/5.0 (Linux; U; Android 4.4.4; ko-kr; SHV-E210K/KTUKOB1 Build/KTU84P) AppleWebKit/534.30 (KHTML, like Gecko) Version/4.0 Mobile Safari/534.30";
  "Mozilla/5.0 (Linux; Android 5.0; E2303 Build/26.1.A.2.167) AppleWebKit/537.36 (KHTML, like Gecko) Chrome/39.0.2171.93 Mobile Safari/537.36";
  "Mozilla/5.0 (iPhone; CPU iPhone OS 9_1 like Mac OS X) AppleWebKit/601.1.46 (KHTML, like Gecko) Version/9.0 Mobile/13B143 Safari/601.1";
  "Mozilla/5.0 (iPhone; CPU iPhone OS 8_4_1 like Mac OS X) AppleWebKit/600.1.4 (KHTML, like Gecko) GSA/9.0.60246 Mobile/12H321 Safari/600.1.4";
  "Opera/9.80 (Android; Opera Mini/7.5.34817/37.7011; U; en) Presto/2.12.423 Version/12.16";
  "Mozilla/5.0 (Linux; Android 5.0; SAMSUNG SM-G900I Build/LRX21T) AppleWebKit/537.36 (KHTML, like Gecko) SamsungBrowser/2.1 Chrome/34.0.1847.76 Mobile Safari/537.36";
  "Mozilla/5.0 (Linux; Android 4.4.2; Retro Build/KOT49H) AppleWebKit/537.36 (KHTML, like Gecko) Version/4.0 Chrome/30.0.0.0 Mobile Safari/537.36";
  "Mozilla/5.0 (Linux; U; Android 4.1.1; en-us; SGH-T889 Build/JRO03C) AppleWebKit/534.30 (KHTML, like Gecko) Version/4.0 Mobile Safari/534.30"]%string.

(** A double [r] in [0, 1), as [Math.random()] returns, is [m * 2^-k] with
    [0 <= m < 2^53] and [0 <= k <= 1074]; every such pair is a double and
    every double in [0, 1) has this form. *)
Definition is_double01 (m k : Z) : bool :=
  (0 <=? m) && (m <? 2 ^ 53) && (0 <=? k) && (k <=? 1074) && (m <? 2 ^ k).

(** IEEE rounding to nearest, ties to even, of the integer [n >= 0] to 53
    significant bits: the result is [q * 2^sh]. *)
Definition round53 (n : Z) : Z * Z :=
  let sh := Z.max 0 (Z.log2 n - 52) in
  let q := n / 2 ^ sh in
  let r := n mod 2 ^ sh in
  let q' := if 2 * r <? 2 ^ sh then q
            else if 2 ^ sh <? 2 * r then q + 1
            else if Z.even q then q else q + 1 in
  (q', sh).

(** [agents[Math.floor(Math.random() * agents.length)]] for [Math.random()]
    returning [m * 2^-k]: the double product is [(m * 15) * 2^-k] rounded at
    53 significant bits (with [k <= 1074] the last bit kept is never below
    2^-1074, so no subnormal rounding arises); [Math.floor] of it; [None] is
    [undefined]. *)
Definition user_agent (m k : Z) : option str :=
  let '(q, sh) := round53 (m * Z.of_nat (List.length agents)) in
  let i := (q * 2 ^ sh) / 2 ^ k in
  if i <? 0 then None else nth_error agents (Z.to_nat i).


(** ** The command line entry point *)

(** Which [program.X] values are truthy after [program.parse(process.argv)]. *)
Record cli_flags := {
  fl_all : bool; fl_input : bool; fl_output : bool; fl_url : bool;
  fl_workers : bool; fl_requests : bool; fl_timeout : bool; fl_strict : bool;
  fl_verbose : bool; fl_debug : bool; fl_nooutput : bool; fl_regex : bool
}.

(** The properties the command line block sets on [opts], in order. *)
Definition cli_opt_keys (f : cli_flags) : list str :=
  (if fl_all f then [s "inputFile"; s "outputFile"] else []) ++
  (if fl_input f then [s "inputFile"] else []) ++
  (if fl_output f then [s "outputFile"] else []) ++
  (if fl_url f then [s "url"] else []) ++
  (if fl_workers f then [s "workers"] else []) ++
  (if fl_requests f then [s "concurrentRequests"] else []) ++
  (if fl_timeout f then [s "requestTimeout"] else []) ++
  (if fl_strict f then [s "strictEnforceTimeout"] else []) ++
  (if fl_verbose f then [s "verbose"] else []) ++
  (if fl_debug f then [s "debug"] else []) ++
  (if fl_nooutput f then [s "nooutput"] else []) ++
  (if fl_regex f then [s "regex"] else []).

(** [this.noOutput = options.noOutput || false] on an [opts] with these
    keys; the values the command line stores are truthy. *)
Definition verify_noOutput (keys : list str) : bool :=
  existsb (fun k => if list_eq_dec ascii_dec k (s "noOutput") then true else false) keys.

(** JavaScript values of the limits: [-w] and [-c] arrive as strings. *)
Inductive jsval :=
| JNum (z : Z)
| JStr (x : str).

(** A non-empty decimal digit string. *)
Definition digits (x : str) : bool := (1 <=? List.length x)%nat && forallb is_digit x.

(** [ToNumber] on numbers and decimal digit strings; other strings are
    outside the model ([None]). *)
Definition to_number (v : jsval) : option Z :=
  match v with
  | JNum z => Some z
  | JStr x => if digits x then Some (dec_value x) else None
  end.

(** The order of strings by code units. *)
Fixpoint str_lt (a b : str) : bool :=
  match a, b with
  | [], [] => false
  | [], _ :: _ => true
  | _ :: _, [] => false
  | x :: a', y :: b' =>
      if (code x <? code y)%nat then true
      else if (code y <? code x)%nat then false
      else str_lt a' b'
  end.

(** [a > b]: two strings compare by code units, anything else as numbers. *)
Definition js_gt (a b : jsval) : option bool :=
  match a, b with
  | JStr x, JStr y => Some (str_lt y x)
  | _, _ =>
      match to_number a, to_number b with
      | Some m, Some n => Some (n <? m)
      | _, _ => None
      end
  end.

(** The constructor's [workers] and [concurrentRequests] when the command
    line gave [-w w -c c] (both non-empty, hence truthy):
    [this.workers = options.workers || ...; if (this.workers > 4) this.workers = 4;
     this.concurrentRequests = options.concurrentRequests || ...;
     if (this.workers > this.concurrentRequests) this.concurrentRequests = this.workers;] *)
Definition cli_limits (w c : str) : option (jsval * jsval) :=
  let workers0 := JStr w in
  match js_gt workers0 (JNum 4) with
  | None => None
  | Some big =>
      let workers := if big then JNum 4 else workers0 in
      let conc0 := JStr c in
      match js_gt workers conc0 with
      | None => None
      | Some b => Some (workers, if b then workers else conc0)
      end
  end.


(** ** Concrete inputs for the extra properties *)

(** A two-line input file. *)
Definition demo_blob : str := s "1.2.3.4:8080" ++ newline :: s "9.9.9.9:3128".

(** An input directory [in/] with a hidden entry and one proxy file. *)
Definition demo_fs (p : str) : option fs_entry :=
  if list_eq_dec ascii_dec p (s "in/") then Some (DirE [s ".git"; s "a.txt"])
  else if list_eq_dec ascii_dec p (s "in/a.txt") then Some (FileE demo_blob)
  else None.




(** * Properties of the parser *)

Example parse_scenario :
  parse_proxies [s "1.2.3.4:8080"; s "1.2.3.4:8080"; s "bad-entry"; s "9.9.9.9:3128"]
  = [s "1.2.3.4:8080"; s "9.9.9.9:3128"].
Proof. vm_compute. reflexivity. Qed.

Lemma in_range_spec lo hi c :
  in_range lo hi c = true <-> (lo <= code c <= hi)%nat.
Proof. unfold in_range. rewrite andb_true_iff, !Nat.leb_le. tauto. Qed.

Lemma lit_spec ch l r : In r (lit ch l) -> l = ch :: r.
Proof.
  destruct l as [|a t]; simpl; [tauto|].
  destruct (Ascii.eqb a ch) eqn:E; simpl; [|tauto].
  apply Ascii.eqb_eq in E. intros [<-|[]]. now subst.
Qed.

Lemma opt_01_spec l r :
  In r (opt_01 l) -> r = l \/ exists a, l = a :: r /\ (48 <= code a <= 49)%nat.
Proof.
  destruct l as [|a t]; simpl; [intros [<-|[]]; auto|].
  destruct (in_range 48 49 a) eqn:E; simpl.
  - intros [<-|[<-|[]]]; [right; exists a; split; [reflexivity|now apply in_range_spec]|auto].
  - intros [<-|[]]; auto.
Qed.

Lemma one_digit_spec l r :
  In r (one_digit l) -> exists a, l = a :: r /\ (48 <= code a <= 57)%nat.
Proof.
  destruct l as [|a t]; simpl; [tauto|].
  destruct (is_digit a) eqn:E; simpl; [|tauto].
  intros [<-|[]]. exists a. split; [reflexivity|now apply in_range_spec].
Qed.

Lemma opt_digit_spec l r :
  In r (opt_digit l) -> r = l \/ exists a, l = a :: r /\ (48 <= code a <= 57)%nat.
Proof.
  destruct l as [|a t]; simpl; [intros [<-|[]]; auto|].
  destruct (is_digit a) eqn:E; simpl.
  - intros [<-|[<-|[]]]; [right; exists a; split; [reflexivity|now apply in_range_spec]|auto].
  - intros [<-|[]]; auto.
Qed.

(** Every way of matching one octet group consumes one to three digits
    whose value is at most 255. *)
Lemma octet_ends_spec l r :
  In r (octet_ends l) -> exists d, l = d ++ r /\ octet_ok d.
Proof.
  unfold octet_ends, octet_ok. rewrite !in_app_iff. intros [H|[H|H]].
  - destruct l as [|a [|b [|c t]]]; simpl in H; try contradiction.
    destruct (in_range 50 50 a && in_range 53 53 b && in_range 48 53 c) eqn:E;
      simpl in H; [|contradiction].
    destruct H as [<-|[]].
    rewrite !andb_true_iff, !in_range_spec in E.
    exists [a; b; c]. simpl. unfold is_digit. rewrite !andb_true_iff, !in_range_spec.
    unfold dec_value; simpl. repeat split; lia.
  - destruct l as [|a [|b [|c t]]]; simpl in H; try contradiction.
    destruct (in_range 50 50 a && in_range 48 52 b && is_digit c) eqn:E;
      simpl in H; [|contradiction].
    destruct H as [<-|[]].
    unfold is_digit in E. rewrite !andb_true_iff, !in_range_spec in E.
    exists [a; b; c]. simpl. unfold is_digit. rewrite !andb_true_iff, !in_range_spec.
    unfold dec_value; simpl. repeat split; lia.
  - unfold alt_short in H. apply in_flat_map in H as [l2 [H2 H3]].
    apply in_flat_map in H2 as [l1 [H1 H2]].
    apply one_digit_spec in H2 as [b [E2 Hb]].
    apply opt_digit_spec in H3 as [E3|[c [E3 Hc]]];
      apply opt_01_spec in H1 as [E1|[a [E1 Ha]]]; subst.
    + exists [b]. simpl. unfold is_digit. rewrite !andb_true_iff, !in_range_spec.
      unfold dec_value; simpl. repeat split; lia.
    + exists [a; b]. simpl. unfold is_digit. rewrite !andb_true_iff, !in_range_spec.
      unfold dec_value; simpl. repeat split; lia.
    + exists [b; c]. simpl. unfold is_digit. rewrite !andb_true_iff, !in_range_spec.
      unfold dec_value; simpl. repeat split; lia.
    + exists [a; b; c]. simpl. unfold is_digit. rewrite !andb_true_iff, !in_range_spec.
      unfold dec_value; simpl. repeat split; lia.
Qed.

Lemma octet_dot_spec l r :
  In r (octet_dot l) -> exists d, l = d ++ "."%char :: r /\ octet_ok d.
Proof.
  unfold octet_dot. intros H. apply in_flat_map in H as [m [Hm Hr]].
  apply lit_spec in Hr. subst m.
  apply octet_ends_spec in Hm as [d [-> Hd]]. eauto.
Qed.

(** What a successful test of the ip:port regex says about the tested string. *)
Lemma ip_port_test_spec l :
  ip_port_test l = true ->
  exists o1 o2 o3 o4 p,
    l = o1 ++ "."%char :: o2 ++ "."%char :: o3 ++ "."%char :: o4 ++ ":"%char :: p /\
    octet_ok o1 /\ octet_ok o2 /\ octet_ok o3 /\ octet_ok o4 /\ port_ok p.
Proof.
  unfold ip_port_test. intros H. apply existsb_exists in H as [p [Hp Hpt]].
  apply in_flat_map in Hp as [l4 [H4 Hp]]. apply lit_spec in Hp. subst l4.
  apply in_flat_map in H4 as [l3 [H3 H4]].
  apply octet_ends_spec in H4 as [o4 [E4 O4]]. subst l3.
  apply in_flat_map in H3 as [l2 [H2 H3]].
  apply octet_dot_spec in H3 as [o3 [E3 O3]]. subst l2.
  apply in_flat_map in H2 as [l1 [H1 H2]].
  apply octet_dot_spec in H2 as [o2 [E2 O2]]. subst l1.
  apply octet_dot_spec in H1 as [o1 [E1 O1]]. subst l.
  exists o1, o2, o3, o4, p. split; [rewrite <- ?app_assoc; reflexivity|].
  do 4 (split; [assumption|]).
  unfold port_tail in Hpt. rewrite !andb_true_iff, !Nat.leb_le in Hpt.
  unfold port_ok. split; [lia|tauto].
Qed.

Lemma dec_value_acc_bound d acc :
  forallb is_digit d = true -> (0 <= acc)%Z ->
  (0 <= fold_left (fun acc c => acc * 10 + (Z.of_nat (code c) - 48)) d acc
     < (acc + 1) * 10 ^ Z.of_nat (List.length d))%Z.
Proof.
  revert acc. induction d as [|c d IH]; intros acc Hd Ha;
    cbn [fold_left List.length]; [simpl; lia|].
  simpl in Hd. apply andb_true_iff in Hd as [Hc Hd].
  apply in_range_spec in Hc.
  assert (Hc' : (0 <= acc * 10 + (Z.of_nat (code c) - 48))%Z) by lia.
  specialize (IH (acc * 10 + (Z.of_nat (code c) - 48))%Z Hd Hc').
  rewrite Nat2Z.inj_succ, Z.pow_succ_r by lia.
  assert (0 < 10 ^ Z.of_nat (List.length d))%Z by (apply Z.pow_pos_nonneg; lia).
  nia.
Qed.

Lemma fold_left_digits_ge d acc :
  forallb is_digit d = true -> (0 <= acc)%Z ->
  (acc <= fold_left (fun acc c => acc * 10 + (Z.of_nat (code c) - 48)) d acc)%Z.
Proof.
  revert acc. induction d as [|c d IH]; intros acc Hd Ha; cbn [fold_left]; [lia|].
  simpl in Hd. apply andb_true_iff in Hd as [Hc Hd]. apply in_range_spec in Hc.
  specialize (IH (acc * 10 + (Z.of_nat (code c) - 48))%Z Hd ltac:(lia)). lia.
Qed.

Lemma port_value_bound p : port_ok p -> (0 <= dec_value p <= 99999)%Z.
Proof.
  intros [Hl Hd]. pose proof (dec_value_acc_bound p 0 Hd (Z.le_refl 0)) as B.
  assert (P : (10 ^ Z.of_nat (List.length p) <= 10 ^ 5)%Z)
    by (apply Z.pow_le_mono_r; lia).
  unfold dec_value. simpl in P. lia.
Qed.

Lemma dedup_acc_incl seen l x : In x (dedup_acc seen l) -> In x l.
Proof.
  revert seen. induction l as [|y l IH]; intros seen; simpl; [tauto|].
  destruct existsb.
  - intros H. right. eapply IH. exact H.
  - intros [<-|H]; [now left|right; eapply IH; exact H].
Qed.

Lemma dedup_acc_fresh seen l x : In x (dedup_acc seen l) -> ~ In x seen.
Proof.
  revert seen. induction l as [|y l IH]; intros seen; simpl; [tauto|].
  destruct (existsb (fun z => if list_eq_dec ascii_dec y z then true else false) seen) eqn:E.
  - apply IH.
  - intros [<-|H].
    + intros Hin. assert (existsb (fun z => if list_eq_dec ascii_dec y z then true else false) seen = true)
        by (apply existsb_exists; exists y; split; [exact Hin|now destruct list_eq_dec]).
      congruence.
    + intros Hin. apply (IH (y :: seen) H). now right.
Qed.

Lemma dedup_acc_nodup seen l : NoDup (dedup_acc seen l).
Proof.
  revert seen. induction l as [|y l IH]; intros seen; simpl; [constructor|].
  destruct existsb; [apply IH|].
  constructor; [|apply IH].
  intros H. apply (dedup_acc_fresh (y :: seen) l y H). now left.
Qed.

(** The parser's output has no duplicate strings. *)
Lemma parse_proxies_nodup blobs : NoDup (parse_proxies blobs).
Proof. apply dedup_acc_nodup. Qed.

(** Every entry of the parser's output passes the regex once trimmed. *)
Lemma parse_proxies_test blobs e :
  In e (parse_proxies blobs) -> ip_port_test (trim e) = true.
Proof.
  unfold parse_proxies, dedup, validate. intros H.
  apply dedup_acc_incl in H. apply filter_In in H. tauto.
Qed.

(** ** C4: trimming is only used for the test *)


(** C4 (failing input): on the CR-LF file [crlf_blob] the parser outputs the
    untrimmed line ["1.2.3.4:8080\r"], which does not satisfy the ip:port
    syntax, next to ["1.2.3.4:8080"], the same proxy once trimmed. *)
Theorem readProxies_keeps_untrimmed_line :
  parse_proxies [crlf_blob] = [s "1.2.3.4:8080" ++ [ascii_of_nat 13]; s "1.2.3.4:8080"] /\
  ip_port_test (s "1.2.3.4:8080" ++ [ascii_of_nat 13]) = false /\
  trim (s "1.2.3.4:8080" ++ [ascii_of_nat 13]) = s "1.2.3.4:8080".
Proof. vm_compute. repeat split. Qed.

(** ** C5: shape of a parsed candidate *)

(** C5 (counterexample): the parser accepts ["1.2.3.4:99999"], whose port,
    as [verifyProxy] splits it, is 99999, above 65535. *)
Theorem readProxies_port_above_65535 :
  In (s "1.2.3.4:99999") (parse_proxies [s "1.2.3.4:99999"]) /\
  (65535 < dec_value (proxy_port (s "1.2.3.4:99999")))%Z.
Proof. vm_compute. split; [left; reflexivity|reflexivity]. Qed.

(** C5 (amended): every entry the parser produces is, once trimmed, four
    octets of one to three digits each with value in 0..255, separated by
    dots, a colon, and a port of one to five digits, so with value in
    0..99999. *)
Theorem readProxies_candidate_shape blobs e :
  In e (parse_proxies blobs) ->
  exists o1 o2 o3 o4 p,
    trim e = o1 ++ "."%char :: o2 ++ "."%char :: o3 ++ "."%char :: o4 ++ ":"%char :: p /\
    octet_ok o1 /\ octet_ok o2 /\ octet_ok o3 /\ octet_ok o4 /\
    port_ok p /\ (0 <= dec_value p <= 99999)%Z.
Proof.
  intros H. apply parse_proxies_test in H.
  apply ip_port_test_spec in H as (o1 & o2 & o3 & o4 & p & E & O1 & O2 & O3 & O4 & P).
  exists o1, o2, o3, o4, p. do 6 (split; [assumption|]).
  now apply port_value_bound.
Qed.

Lemma readProxies_candidate_shape_witness :
  In (s "9.9.9.9:3128") (parse_proxies [s "1.2.3.4:8080"; s "9.9.9.9:3128"]) /\
  exists o1 o2 o3 o4 p,
    trim (s "9.9.9.9:3128") = o1 ++ "."%char :: o2 ++ "."%char :: o3 ++ "."%char :: o4 ++ ":"%char :: p /\
    octet_ok o1 /\ octet_ok o2 /\ octet_ok o3 /\ octet_ok o4 /\
    port_ok p /\ (0 <= dec_value p <= 99999)%Z.
Proof.
  assert (H : In (s "9.9.9.9:3128") (parse_proxies [s "1.2.3.4:8080"; s "9.9.9.9:3128"]))
    by (vm_compute; right; left; reflexivity).
  split; [exact H|].
  exact (readProxies_candidate_shape _ _ H).
Defined.

(** * The probe: outcome latching *)

Lemma probe_step_latched p ev :
  p_returned p = true ->
  p_returned (probe_step p ev) = true /\ p_sent (probe_step p ev) = p_sent p.
Proof.
  intros H. destruct ev; simpl; unfold return_broadcast, clear_timeout, abort; simpl;
    try rewrite H; auto.
  destruct (p_timer p); simpl; rewrite ?H; auto.
Qed.

Lemma probe_run_latched evs p :
  p_returned p = true ->
  p_returned (probe_run p evs) = true /\ p_sent (probe_run p evs) = p_sent p.
Proof.
  revert p. induction evs as [|ev evs IH]; intros p H; simpl; [auto|].
  destruct (probe_step_latched p ev H) as [H1 H2].
  destruct (IH _ H1) as [H3 H4]. rewrite H4, H2. auto.
Qed.


Lemma probe_step_inv p ev : probe_inv p -> probe_inv (probe_step p ev).
Proof.
  intros [[Hr Hs]|[Hr Hs]].
  - destruct ev; simpl; unfold return_broadcast, clear_timeout, abort; simpl;
      rewrite ?Hr, ?Hs; simpl.
    + destruct (p_timer p); simpl; rewrite ?Hr, ?Hs; [right; auto|left; auto].
    + right; auto.
    + right; auto.
    + left; auto.
  - right. destruct (probe_step_latched p ev Hr) as [H1 H2]. rewrite H1, H2. auto.
Qed.

Lemma probe_run_inv evs p : probe_inv p -> probe_inv (probe_run p evs).
Proof.
  revert p. induction evs as [|ev evs IH]; intros p H; simpl; [exact H|].
  apply IH, probe_step_inv, H.
Qed.

Lemma probe_run_app p evs1 evs2 :
  probe_run p (evs1 ++ evs2) = probe_run (probe_run p evs1) evs2.
Proof. unfold probe_run. apply fold_left_app. Qed.

(** C2: whatever callbacks run, and in whatever order, a probe sends at most
    one message to the master, and once it has sent one, later callbacks of
    the same request send nothing more. *)
Theorem verifyProxy_reports_once v evs1 evs2 :
  (List.length (p_sent (probe_run (verify_proxy_init v) (evs1 ++ evs2))) <= 1)%nat /\
  (p_sent (probe_run (verify_proxy_init v) evs1) = [] \/
   p_sent (probe_run (verify_proxy_init v) (evs1 ++ evs2)) =
   p_sent (probe_run (verify_proxy_init v) evs1)).
Proof.
  assert (I0 : probe_inv (verify_proxy_init v)) by (left; split; reflexivity).
  split.
  - destruct (probe_run_inv (evs1 ++ evs2) _ I0) as [[_ ->]|[_ ->]]; simpl; lia.
  - destruct (probe_run_inv evs1 _ I0) as [[_ H]|[H _]]; [left; exact H|right].
    rewrite probe_run_app. apply probe_run_latched, H.
Qed.

Example probe_timeout_then_end :
  p_sent (probe_run (verify_proxy_init (new_verify no_options 4))
            [EvTimer; EvError (s "ECONNRESET"); EvResponseEnd])
  = [VErr (s "STRICT_TIMEOUT")].
Proof. reflexivity. Qed.

(** * The constructor *)

(** C6 (failing input): [options.strictEnforceTimeout || true] is [true]
    for every options object, [strictEnforceTimeout: false] included, so
    every probe arms the strict timer, and a probe configured as lenient
    is aborted by it. *)
Theorem strict_timeout_always_on o cpus :
  strictEnforceTimeout (new_verify o cpus) = true /\
  p_timer (verify_proxy_init (new_verify o cpus)) = true /\
  p_sent (probe_run
            (verify_proxy_init
               (new_verify {| opt_url := None; opt_workers := None;
                              opt_concurrentRequests := None; opt_requestTimeout := None;
                              opt_strictEnforceTimeout := Some false |} cpus))
            [EvTimer]) = [VErr (s "STRICT_TIMEOUT")].
Proof.
  unfold new_verify, verify_proxy_init, js_or_bool; simpl.
  destruct (opt_strictEnforceTimeout o) as [[|]|]; auto.
Qed.

Lemma init_world_conc v proxies :
  m_conc (w_master (init_world v proxies)) =
  Z.min (concurrentRequests v) (Z.of_nat (List.length proxies)).
Proof.
  unfold init_world, on_read_proxies.
  destruct (start_loop _ _ proxies) as [q sent]. simpl.
  destruct (Z.of_nat (List.length proxies) <? concurrentRequests v) eqn:E;
    [apply Z.ltb_lt in E|apply Z.ltb_ge in E]; lia.
Qed.

(** C10 (counterexample): with [workers: 4] and [concurrentRequests: 1] the
    constructor raises the limit to 4, but a run on two candidates uses the
    limit 2, below the worker count. *)
Theorem effective_limit_below_workers :
  let v := new_verify {| opt_url := None; opt_workers := Some 4;
                         opt_concurrentRequests := Some 1; opt_requestTimeout := None;
                         opt_strictEnforceTimeout := None |} 8 in
  concurrentRequests v = 4 /\ workers v = 4 /\
  m_conc (w_master (init_world v [s "1.2.3.4:80"; s "5.6.7.8:80"])) = 2 /\
  List.length (w_inflight (init_world v [s "1.2.3.4:80"; s "5.6.7.8:80"])) = 2%nat.
Proof. vm_compute. repeat split. Qed.

(** C10 (amended): the worker count is the configured one (or the CPU
    count) capped at 4; the constructor raises the configured limit (or its
    default, 30 per worker) to the worker count when smaller; at run start
    the limit is lowered to the number of candidates when larger. *)
Theorem effective_limit_formula o cpus proxies :
  let v := new_verify o cpus in
  workers v = Z.min (js_or_num (opt_workers o) cpus) 4 /\
  concurrentRequests v =
    Z.max (js_or_num (opt_concurrentRequests o) (workers v * 30)) (workers v) /\
  m_conc (w_master (init_world v proxies)) =
    Z.min (concurrentRequests v) (Z.of_nat (List.length proxies)).
Proof.
  intros v. split; [|split]; [| |apply init_world_conc].
  - subst v. unfold new_verify; simpl.
    destruct (4 <? js_or_num (opt_workers o) cpus) eqn:E;
      [apply Z.ltb_lt in E|apply Z.ltb_ge in E]; lia.
  - subst v. unfold new_verify; simpl.
    set (w := if 4 <? js_or_num (opt_workers o) cpus then 4 else js_or_num (opt_workers o) cpus).
    destruct (js_or_num (opt_concurrentRequests o) (w * 30) <? w) eqn:E;
      [apply Z.ltb_lt in E|apply Z.ltb_ge in E]; lia.
Qed.

(** * The request of a probe *)

(** C9 (counterexample): with the default target ["http://digg.com/"],
    whose path is ["/"], the request's [path] is the whole URL, which does
    not even start with ['/'] (the path does not depend on the hostname
    [url.parse] gives, here ["digg.com"]). *)
Theorem request_path_is_full_url :
  let r := verify_request (fun _ => Some (s "digg.com")) (new_verify no_options 4)
             (s "1.2.3.4:8080") (s "Opera/9.80") in
  rq_path r = s "http://digg.com/" /\ hd_error (rq_path r) <> Some "/"%char.
Proof. simpl. split; [reflexivity|discriminate]. Qed.

(** * The master: scheduling and aggregation *)

Lemma start_loop_spec q i c :
  start_loop i c q =
  (skipn (Nat.min (List.length q) (Z.to_nat (c - i))) q,
   firstn (Nat.min (List.length q) (Z.to_nat (c - i))) q).
Proof.
  revert i. induction q as [|p r IH]; intros i; simpl; [reflexivity|].
  destruct (i <? c) eqn:E.
  - apply Z.ltb_lt in E. rewrite IH.
    replace (Z.to_nat (c - i)) with (S (Z.to_nat (c - (i + 1)))) by lia.
    reflexivity.
  - apply Z.ltb_ge in E. replace (Z.to_nat (c - i)) with 0%nat by lia.
    reflexivity.
Qed.

Lemma init_world_eq v proxies :
  let n := Z.of_nat (List.length proxies) in
  let c := Z.min (concurrentRequests v) n in
  init_world v proxies =
  {| w_master := {| m_proxies := skipn (Z.to_nat c) proxies; m_verified := [];
                    m_stats := {| good := 0; bad := 0; total := n; done := 0; responses := [] |};
                    m_conc := c; m_final := None |};
     w_inflight := firstn (Z.to_nat c) proxies |}.
Proof.
  intros n c. unfold init_world, on_read_proxies. fold n.
  replace (if n <? concurrentRequests v then n else concurrentRequests v) with c
    by (subst c; destruct (n <? concurrentRequests v) eqn:E;
        [apply Z.ltb_lt in E|apply Z.ltb_ge in E]; lia).
  rewrite start_loop_spec.
  replace (Nat.min (List.length proxies) (Z.to_nat (c - 0))) with (Z.to_nat c)
    by (subst c n; lia).
  reflexivity.
Qed.

(** The effect of one [verifiedProxy] message on the master. *)
Lemma on_verified_spec m d :
  let '(m', disp) := on_verified m d in
  let st := m_stats m in
  let st' := m_stats m' in
  done st' = done st + 1 /\ total st' = total st /\ m_conc m' = m_conc m /\
  good st' = good st + (if ok d then 1 else 0) /\
  bad st' = bad st + (if ok d then 0 else 1) /\
  m_verified m' = m_verified m ++ (if ok d then [o_proxy d] else []) /\
  responses st' = responses st ++ (if ok d then [o_latency d] else []) /\
  (if done st + 1 =? total st
   then m_proxies m' = m_proxies m /\ disp = None /\
        m_final m' = Some (finish st' (m_verified m'))
   else m_final m' = m_final m /\
        match m_proxies m with
        | [] => m_proxies m' = [] /\ disp = None
        | p :: ps => m_proxies m' = ps /\ disp = Some p
        end).
Proof.
  unfold on_verified, ok.
  destruct (o_err d); destruct (done (m_stats m) + 1 =? total (m_stats m));
    unfold dispatch_request; simpl; try destruct (m_proxies m);
    simpl; rewrite ?app_nil_r; repeat split; try reflexivity; lia.
Qed.

Lemma skipn_cons_next {A} k (l : list A) p ps :
  skipn k l = p :: ps -> skipn (S k) l = ps.
Proof.
  revert l. induction k as [|k IH]; intros l H; destruct l as [|a l]; simpl in *;
    try discriminate.
  - now inversion H.
  - now apply IH.
Qed.

Lemma run_inv_init v proxies : run_inv v proxies [] (init_world v proxies).
Proof.
  rewrite init_world_eq. unfold run_inv. simpl.
  repeat split; try reflexivity.
  - eexists. reflexivity.
  - rewrite <- length_app, firstn_skipn. lia.
  - now right.
Qed.

Lemma run_inv_step v proxies tr w d w' :
  run_inv v proxies tr w -> resolve w d w' -> run_inv v proxies (tr ++ [d]) w'.
Proof.
  intros I R. destruct R as [w pre post d m' disp Hin Hov]. unfold run_inv in *.
  destruct I as (Ht & Hd & Hgb & Hg & Hv & Hr & Hc & [k Hk] & Hl & Hf).
  pose proof (on_verified_spec (w_master w) d) as S. rewrite Hov in S.
  destruct S as (Sd & St & Sc & Sg & Sb & Sv & Sr & Sx).
  simpl. rewrite Hin in Hl. rewrite length_app in Hl. simpl in Hl.
  rewrite filter_app, length_app, !map_app. simpl.
  rewrite Sd, St, Sc, Sg, Sb, Sv, Sr, Hv, Hr, Hg.
  destruct (done (m_stats (w_master w)) + 1 =? total (m_stats (w_master w))) eqn:E.
  - apply Z.eqb_eq in E. destruct Sx as (Sq & -> & Sf). rewrite Sf, Sq, Sv, Hv.
    simpl. rewrite !length_app.
    destruct (ok d); simpl; repeat split; try reflexivity;
      try (exists k; exact Hk); lia.
  - apply Z.eqb_neq in E. destruct Sx as (Sf & Sq). rewrite Sf.
    assert (Hlt : done (m_stats (w_master w)) + 1 < Z.of_nat (List.length proxies)) by lia.
    destruct (m_final (w_master w)) as [f|]; [destruct Hf as [Hf _]; lia|].
    destruct (m_proxies (w_master w)) as [|p ps] eqn:Q; destruct Sq as (Sq & ->);
      rewrite Sq; simpl in Hl |- *; rewrite !length_app; simpl.
    + destruct (ok d); simpl; repeat split; try reflexivity;
        try (exists k; exact Hk); try (left; lia); lia.
    + assert (Hk' : skipn (S k) proxies = ps)
        by (apply (skipn_cons_next k proxies p ps); rewrite <- Hk; reflexivity).
      destruct (ok d); simpl; repeat split; try reflexivity;
        try (exists (S k); symmetry; exact Hk'); try (left; lia); lia.
Qed.

Lemma run_inv_reach v proxies tr w :
  run (init_world v proxies) tr w -> run_inv v proxies tr w.
Proof.
  induction 1 as [|tr w d w' _ IH R].
  - apply run_inv_init.
  - eapply run_inv_step; eassumption.
Qed.

(** The facts of one resolution step, read off the invariant. *)
Lemma resolve_facts v proxies tr w d w' :
  run_inv v proxies tr w -> resolve w d w' ->
  let n := Z.of_nat (List.length proxies) in
  done (m_stats (w_master w')) = done (m_stats (w_master w)) + 1 /\
  (List.length (w_inflight w) = S (List.length (w_inflight w') - List.length (opt_list (hd_error (m_proxies (w_master w))))))%nat /\
  match m_proxies (w_master w) with
  | [] => m_proxies (w_master w') = []
  | p :: ps => m_proxies (w_master w') = ps /\ In p (w_inflight w')
  end.
Proof.
  intros I R. destruct R as [w pre post d m' disp Hin Hov]. unfold run_inv in I.
  destruct I as (Ht & Hd & Hgb & Hg & Hv & Hr & Hc & [k Hk] & Hl & Hf).
  pose proof (on_verified_spec (w_master w) d) as S. rewrite Hov in S.
  destruct S as (Sd & St & Sc & Sg & Sb & Sv & Sr & Sx).
  simpl. rewrite Hin in Hl |- *. rewrite !length_app in *. simpl in Hl |- *.
  split; [exact Sd|].
  destruct (done (m_stats (w_master w)) + 1 =? total (m_stats (w_master w))) eqn:E.
  - apply Z.eqb_eq in E. destruct Sx as (Sq & -> & _). rewrite Sq.
    destruct (m_proxies (w_master w)) as [|p ps]; simpl in Hl |- *; [split; [lia|reflexivity]|].
    exfalso. lia.
  - destruct Sx as (_ & Sq).
    destruct (m_proxies (w_master w)) as [|p ps]; destruct Sq as (Sq & ->); simpl.
    + split; [lia|exact Sq].
    + split; [lia|]. split; [exact Sq|]. apply in_or_app. right. apply in_or_app. right. now left.
Qed.

(** With a limit of at least one, the number of probes in flight is the
    limit, or what is left to complete when that is smaller. *)
Lemma in_flight_reach v proxies tr w :
  1 <= concurrentRequests v ->
  run (init_world v proxies) tr w ->
  Z.of_nat (List.length (w_inflight w)) =
  Z.min (Z.min (concurrentRequests v) (Z.of_nat (List.length proxies)))
        (Z.of_nat (List.length proxies) - done (m_stats (w_master w))).
Proof.
  intros Hc1. induction 1 as [|tr w d w' Hrun IH R].
  - rewrite init_world_eq. simpl. rewrite length_firstn. lia.
  - pose proof (run_inv_reach _ _ _ _ Hrun) as I.
    pose proof (resolve_facts _ _ _ _ _ _ I R) as (Fd & Fl & Fq).
    destruct I as (_ & _ & _ & _ & _ & _ & _ & _ & Hl & _).
    rewrite Fd. revert Fl Fq Hl.
    destruct (m_proxies (w_master w)) as [|p ps]; simpl; intros Fl Fq Hl.
    + lia.
    + assert (1 <= List.length (w_inflight w'))%nat
        by (destruct (w_inflight w'); [destruct Fq as [_ []]|simpl; lia]).
      lia.
Qed.

Lemma demo_run : run demo_w0 [demo_d1; demo_d2] demo_w2.
Proof.
  change [demo_d1; demo_d2] with (([] ++ [demo_d1]) ++ [demo_d2]).
  apply run_step with demo_w1; [apply run_step with demo_w0; [apply run_start|]|].
  - unfold demo_w1. destruct (on_verified _ _) as [m' disp] eqn:E.
    apply resolve_probe; [reflexivity|exact E].
  - unfold demo_w2. destruct (on_verified _ _) as [m' disp] eqn:E.
    apply resolve_probe; [|exact E].
    unfold demo_w1. destruct (on_verified (w_master demo_w0) demo_d1) as [m1 d1] eqn:E1.
    vm_compute in E1. inversion E1. reflexivity.
Qed.

(** C3: after every message the master has handled, successes plus
    failures equal the completed count, which stays between 0 and the
    number of candidates. *)
Theorem aggregator_counts_consistent v proxies tr w :
  run (init_world v proxies) tr w ->
  good (m_stats (w_master w)) + bad (m_stats (w_master w)) = done (m_stats (w_master w)) /\
  0 <= done (m_stats (w_master w)) <= total (m_stats (w_master w)) /\
  total (m_stats (w_master w)) = Z.of_nat (List.length proxies).
Proof.
  intros H. apply run_inv_reach in H.
  destruct H as (Ht & Hd & Hgb & _ & _ & _ & _ & _ & Hl & _). lia.
Qed.

Lemma aggregator_counts_consistent_witness :
  run (init_world demo_v demo_proxies) [demo_d1; demo_d2] demo_w2 /\
  good (m_stats (w_master demo_w2)) + bad (m_stats (w_master demo_w2)) = done (m_stats (w_master demo_w2)) /\
  0 <= done (m_stats (w_master demo_w2)) <= total (m_stats (w_master demo_w2)) /\
  total (m_stats (w_master demo_w2)) = Z.of_nat (List.length demo_proxies).
Proof.
  split; [exact demo_run|].
  exact (aggregator_counts_consistent demo_v demo_proxies _ _ demo_run).
Defined.

(** [responses.reduce] adds up the array. *)
Lemma js_sum_correct l : js_sum l == fold_right Qplus 0%Q l.
Proof.
  destruct l as [|x r]; [reflexivity|]. simpl.
  assert (G : forall a, fold_left Qplus r a == a + fold_right Qplus 0%Q r).
  { induction r as [|y r IH]; intros a; simpl.
    - ring.
    - rewrite IH. ring. }
  apply G.
Qed.

(** C7: when the DONE branch has been taken, it reported "No verified
    proxies" (writing nothing) when no probe succeeded; otherwise it saved
    the successful proxies in the order their messages arrived, with the
    average of the successful probes' latencies only. *)
Theorem done_report v proxies tr w f :
  run (init_world v proxies) tr w ->
  m_final (w_master w) = Some f ->
  (filter ok tr = [] -> f = NoVerified) /\
  (filter ok tr <> [] ->
   f = Saved (js_sum (map o_latency (filter ok tr)) /
              inject_Z (Z.of_nat (List.length (filter ok tr))))
             (map o_proxy (filter ok tr))).
Proof.
  intros H Hf. apply run_inv_reach in H.
  destruct H as (_ & _ & _ & Hg & Hv & Hr & _ & _ & _ & Hfin).
  rewrite Hf in Hfin. destruct Hfin as [_ ->]. unfold finish.
  rewrite Hg, Hr, Hv. split.
  - intros ->. reflexivity.
  - intros Hne. destruct (filter ok tr) as [|x r]; [congruence|].
    replace (Z.of_nat (List.length (x :: r)) <? 1) with false
      by (symmetry; apply Z.ltb_ge; simpl; lia).
    reflexivity.
Qed.

Lemma done_report_witness :
  run (init_world demo_v demo_proxies) [demo_d1; demo_d2] demo_w2 /\
  m_final (w_master demo_w2) =
    Some (match m_final (w_master demo_w2) with Some f => f | None => NoVerified end) /\
  let f := match m_final (w_master demo_w2) with Some f => f | None => NoVerified end in
  (filter ok [demo_d1; demo_d2] = [] -> f = NoVerified) /\
  (filter ok [demo_d1; demo_d2] <> [] ->
   f = Saved (js_sum (map o_latency (filter ok [demo_d1; demo_d2])) /
              inject_Z (Z.of_nat (List.length (filter ok [demo_d1; demo_d2]))))
             (map o_proxy (filter ok [demo_d1; demo_d2]))).
Proof.
  assert (Hf : m_final (w_master demo_w2) =
    Some (match m_final (w_master demo_w2) with Some f => f | None => NoVerified end))
    by (vm_compute; reflexivity).
  split; [exact demo_run|]. split; [exact Hf|].
  exact (done_report demo_v demo_proxies _ _ _ demo_run Hf).
Defined.

Example demo_final :
  m_final (w_master demo_w2) = Some (Saved (1 # 2) [s "1.2.3.4:8080"]).
Proof. vm_compute. reflexivity. Qed.

(** * The dispatcher *)


(** C1 (counterexample): configured with [concurrentRequests: 1] and four
    workers, a run on five candidates starts four probes, not
    [min(1, 5) = 1]. *)
Theorem dispatcher_ignores_limit_below_workers :
  let v := new_verify {| opt_url := None; opt_workers := Some 4;
                         opt_concurrentRequests := Some 1; opt_requestTimeout := None;
                         opt_strictEnforceTimeout := None |} 8 in
  w_inflight (init_world v five_proxies) = firstn 4 five_proxies /\
  List.length (w_inflight (init_world v five_proxies)) <> Z.to_nat (Z.min 1 5).
Proof. vm_compute. split; [reflexivity|discriminate]. Qed.

(** C1 (amended): with at least one worker and at least one candidate, and
    [c] the limit the run uses ([min(max(C, W), N)], C the configured or
    default limit, W the worker count), the run starts with the first [c]
    candidates in flight and the rest queued in order; at every point of
    the run the number in flight is [min(c, N - completed)], the completed
    count is the number of messages handled, at most N, and the queue is a
    suffix of the input; each resolution adds one to the completed count
    and, if the queue is non-empty, starts its head (the number in flight
    is kept), otherwise lowers the number in flight by one; when nothing is
    in flight, all N are completed and the DONE branch has been taken. *)
Theorem dispatcher_in_flight o cpus proxies :
  1 <= workers (new_verify o cpus) ->
  proxies <> [] ->
  let v := new_verify o cpus in
  let w0 := init_world v proxies in
  let n := Z.of_nat (List.length proxies) in
  let c := Z.min (Z.max (js_or_num (opt_concurrentRequests o) (workers v * 30)) (workers v)) n in
  m_conc (w_master w0) = c /\
  w_inflight w0 = firstn (Z.to_nat c) proxies /\
  m_proxies (w_master w0) = skipn (Z.to_nat c) proxies /\
  forall tr w, run w0 tr w ->
    Z.of_nat (List.length (w_inflight w)) = Z.min c (n - done (m_stats (w_master w))) /\
    done (m_stats (w_master w)) = Z.of_nat (List.length tr) /\
    done (m_stats (w_master w)) <= n /\
    (exists k, m_proxies (w_master w) = skipn k proxies) /\
    (w_inflight w = [] -> done (m_stats (w_master w)) = n /\ m_final (w_master w) <> None) /\
    (forall d w', resolve w d w' ->
       done (m_stats (w_master w')) = done (m_stats (w_master w)) + 1 /\
       match m_proxies (w_master w) with
       | [] => m_proxies (w_master w') = [] /\
               S (List.length (w_inflight w')) = List.length (w_inflight w)
       | p :: ps => m_proxies (w_master w') = ps /\ In p (w_inflight w') /\
                    List.length (w_inflight w') = List.length (w_inflight w)
       end).
Proof.
  intros Hw Hn v w0 n c.
  assert (Hc : c = Z.min (concurrentRequests v) n).
  { pose proof (effective_limit_formula o cpus proxies) as (_ & E & _). subst c v. rewrite E. reflexivity. }
  assert (Hcv : workers v <= concurrentRequests v).
  { pose proof (effective_limit_formula o cpus proxies) as (_ & E & _). fold v in E. lia. }
  assert (Hn1 : 1 <= n) by (subst n; destruct proxies; [congruence|simpl; lia]).
  fold v in Hw. rewrite Hc. subst w0.
  pose proof (init_world_eq v proxies) as W0. cbv zeta in W0. fold n in W0.
  split; [rewrite W0; reflexivity|]. split; [rewrite W0; reflexivity|].
  split; [rewrite W0; reflexivity|].
  intros tr w Hrun.
  pose proof (in_flight_reach v proxies tr w ltac:(lia) Hrun) as Hf. fold n in Hf.
  pose proof (run_inv_reach _ _ _ _ Hrun) as I.
  pose proof I as (_ & Hd & _ & _ & _ & _ & _ & Hk & Hl & Hfin). fold n in Hl, Hfin.
  split; [exact Hf|]. split; [exact Hd|]. split; [lia|]. split; [exact Hk|]. split.
  - intros He. rewrite He in Hf. cbn [List.length] in Hf.
    assert (Hdn : done (m_stats (w_master w)) = n) by lia.
    split; [exact Hdn|].
    destruct (m_final (w_master w)); [discriminate|].
    destruct Hfin as [Hlt| ->]; [lia|]. simpl in Hd. lia.
  - intros d w' R.
    pose proof (resolve_facts _ _ _ _ _ _ I R) as (Fd & Fl & Fq).
    split; [exact Fd|]. revert Fl Fq.
    destruct (m_proxies (w_master w)) as [|p ps]; simpl; intros Fl Fq.
    + split; [exact Fq|lia].
    + destruct Fq as [Fq Fi]. split; [exact Fq|]. split; [exact Fi|].
      assert (1 <= List.length (w_inflight w'))%nat
        by (destruct (w_inflight w'); [destruct Fi|simpl; lia]).
      lia.
Qed.

Lemma dispatcher_in_flight_witness :
  1 <= workers (new_verify no_options 1) /\ demo_proxies <> [] /\
  let v := new_verify no_options 1 in
  let w0 := init_world v demo_proxies in
  let n := Z.of_nat (List.length demo_proxies) in
  let c := Z.min (Z.max (js_or_num (opt_concurrentRequests no_options) (workers v * 30)) (workers v)) n in
  m_conc (w_master w0) = c /\
  w_inflight w0 = firstn (Z.to_nat c) demo_proxies /\
  m_proxies (w_master w0) = skipn (Z.to_nat c) demo_proxies /\
  forall tr w, run w0 tr w ->
    Z.of_nat (List.length (w_inflight w)) = Z.min c (n - done (m_stats (w_master w))) /\
    done (m_stats (w_master w)) = Z.of_nat (List.length tr) /\
    done (m_stats (w_master w)) <= n /\
    (exists k, m_proxies (w_master w) = skipn k demo_proxies) /\
    (w_inflight w = [] -> done (m_stats (w_master w)) = n /\ m_final (w_master w) <> None) /\
    (forall d w', resolve w d w' ->
       done (m_stats (w_master w')) = done (m_stats (w_master w)) + 1 /\
       match m_proxies (w_master w) with
       | [] => m_proxies (w_master w') = [] /\
               S (List.length (w_inflight w')) = List.length (w_inflight w)
       | p :: ps => m_proxies (w_master w') = ps /\ In p (w_inflight w') /\
                    List.length (w_inflight w') = List.length (w_inflight w)
       end).
Proof.
  assert (H1 : 1 <= workers (new_verify no_options 1)) by (vm_compute; discriminate).
  assert (H2 : demo_proxies <> []) by discriminate.
  split; [exact H1|]. split; [exact H2|].
  exact (dispatcher_in_flight no_options 1 demo_proxies H1 H2).
Defined.

(** * Coverage beyond the claims *)

(** ** Splitting and joining *)

Lemma split_on_app_sep c x r :
  ~ In c x -> split_on c (x ++ c :: r) = x :: split_on c r.
Proof.
  induction x as [|a x IH]; intros H; simpl.
  - now rewrite Ascii.eqb_refl.
  - destruct (Ascii.eqb a c) eqn:E.
    + apply Ascii.eqb_eq in E. subst. exfalso. apply H. now left.
    + rewrite IH by (intros Hin; apply H; now right). reflexivity.
Qed.

Lemma split_on_nosep c x : ~ In c x -> split_on c x = [x].
Proof.
  induction x as [|a x IH]; intros H; simpl; [reflexivity|].
  destruct (Ascii.eqb a c) eqn:E.
  - apply Ascii.eqb_eq in E. subst. exfalso. apply H. now left.
  - rewrite IH by (intros Hin; apply H; now right). reflexivity.
Qed.

Lemma split_on_piece_nosep c l x : In x (split_on c l) -> ~ In c x.
Proof.
  revert x. induction l as [|a l IH]; intros x; simpl.
  - intros [<-|[]]. simpl. tauto.
  - destruct (Ascii.eqb a c) eqn:E.
    + intros [<-|H]; [simpl; tauto|now apply IH].
    + destruct (split_on c l) as [|w ws] eqn:S.
      * intros [<-|[]]. simpl. intros [->|[]]. now rewrite Ascii.eqb_refl in E.
      * intros [<-|H].
        -- simpl. intros [->|Hw]; [now rewrite Ascii.eqb_refl in E|].
           apply (IH w); [now left|exact Hw].
        -- apply IH. now right.
Qed.

Lemma split_on_join c l :
  l <> [] -> (forall x, In x l -> ~ In c x) -> split_on c (js_join [c] l) = l.
Proof.
  destruct l as [|x r]; [congruence|]. intros _. revert x.
  induction r as [|y r IH]; intros x H; simpl.
  - rewrite app_nil_r. apply split_on_nosep, H. now left.
  - rewrite split_on_app_sep by (apply H; now left).
    f_equal. apply (IH y). intros z Hz. apply H. now right.
Qed.

(** ** Re-reading a list of candidates *)

Lemma validate_all l :
  (forall x, In x l -> ip_port_test (trim x) = true) -> validate l = l.
Proof.
  induction l as [|x l IH]; intros H; simpl; [reflexivity|].
  rewrite (H x) by (now left). f_equal. apply IH. intros y Hy. apply H. now right.
Qed.

Lemma dedup_acc_fresh_id seen l :
  NoDup l -> (forall x, In x l -> ~ In x seen) -> dedup_acc seen l = l.
Proof.
  revert seen. induction l as [|x l IH]; intros seen ND H; simpl; [reflexivity|].
  inversion ND as [|? ? Hx ND']. subst.
  destruct (existsb (fun y => if list_eq_dec ascii_dec x y then true else false) seen) eqn:E.
  - apply existsb_exists in E as (z & Hz & Hf).
    destruct (list_eq_dec ascii_dec x z); [subst|discriminate].
    exfalso. apply (H z); [now left|exact Hz].
  - f_equal. apply IH; [exact ND'|]. intros y Hy [<-|Hs]; [contradiction|].
    apply (H y); [now right|exact Hs].
Qed.

Lemma parse_proxies_piece blobs x :
  In x (parse_proxies blobs) -> ~ In newline x.
Proof.
  unfold parse_proxies, validate, read_lines, dedup. intros H.
  apply dedup_acc_incl, filter_In in H as [H _].
  apply in_flat_map in H as (b & _ & Hb).
  exact (split_on_piece_nosep _ _ _ Hb).
Qed.

(** Any duplicate-free selection of a parser output, joined with newlines as
    [saveProxies] writes it, parses back to itself. *)
Lemma reparse_selection blobs l :
  NoDup l -> incl l (parse_proxies blobs) -> parse_proxies [js_join [newline] l] = l.
Proof.
  intros ND Hincl. destruct l as [|x r] eqn:El; [vm_compute; reflexivity|].
  rewrite <- El in *.
  unfold parse_proxies at 1, read_lines. simpl flat_map. rewrite app_nil_r.
  rewrite split_on_join
    by (subst l; discriminate || (intros y Hy; apply (parse_proxies_piece blobs), Hincl, Hy)).
  rewrite validate_all
    by (intros y Hy; apply (parse_proxies_test blobs), Hincl, Hy).
  apply dedup_acc_fresh_id; [exact ND|]. intros y _ [].
Qed.

(** ** Every candidate is dispatched once *)

Lemma firstn_skipn_next {A} k (l : list A) p ps :
  skipn k l = p :: ps -> firstn (S k) l = firstn k l ++ [p].
Proof.
  revert l. induction k as [|k IH]; intros l H; destruct l as [|a l]; simpl in *;
    try discriminate.
  - now inversion H.
  - f_equal. now apply IH.
Qed.

Lemma perm_resolve_keep {A} (pre post M L : list A) x :
  Permutation ((pre ++ x :: post) ++ M) L ->
  Permutation ((pre ++ post ++ []) ++ M ++ [x]) L.
Proof.
  intros P. rewrite <- P, app_nil_r, <- !app_assoc. apply Permutation_app_head.
  simpl. rewrite app_assoc. symmetry. apply Permutation_cons_append.
Qed.

Lemma perm_resolve_next {A} (pre post M L : list A) x p :
  Permutation ((pre ++ x :: post) ++ M) L ->
  Permutation ((pre ++ post ++ [p]) ++ M ++ [x]) (L ++ [p]).
Proof.
  intros P. rewrite <- P, <- !app_assoc. apply Permutation_app_head. simpl.
  transitivity (x :: post ++ p :: M).
  - replace (post ++ p :: M ++ [x]) with ((post ++ p :: M) ++ [x])
      by (now rewrite <- app_assoc).
    symmetry. apply Permutation_cons_append.
  - apply perm_skip, Permutation_app_head, Permutation_cons_append.
Qed.

(** The proxies handed out so far are a prefix of the input; they are
    exactly the ones in flight together with the ones reported. *)
Lemma dispatched_perm v proxies tr w :
  run (init_world v proxies) tr w ->
  exists k, m_proxies (w_master w) = skipn k proxies /\
            Permutation (w_inflight w ++ map o_proxy tr) (firstn k proxies).
Proof.
  induction 1 as [|tr w d w' Hrun IH R].
  - rewrite init_world_eq. simpl. eexists. split; [reflexivity|]. now rewrite app_nil_r.
  - destruct IH as (k & Hk & HP). destruct R as [w pre post d m' disp Hin Hov].
    pose proof (on_verified_spec (w_master w) d) as S. rewrite Hov in S.
    destruct S as (_ & _ & _ & _ & _ & _ & _ & Sx). simpl. rewrite map_app. simpl.
    rewrite Hin in HP.
    destruct (done (m_stats (w_master w)) + 1 =? total (m_stats (w_master w))).
    + destruct Sx as (Sq & -> & _). exists k. rewrite Sq. split; [exact Hk|].
      now apply perm_resolve_keep.
    + destruct Sx as (_ & Sq). destruct (m_proxies (w_master w)) as [|p ps] eqn:Q;
        destruct Sq as (Sq & ->).
      * exists k. rewrite Sq. split; [exact Hk|]. now apply perm_resolve_keep.
      * exists (S k). rewrite Sq. split.
        -- symmetry. apply (skipn_cons_next k proxies p ps). now rewrite <- Hk.
        -- rewrite (firstn_skipn_next k proxies p ps) by (now rewrite <- Hk).
           now apply perm_resolve_next.
Qed.

Lemma firstn_incl {A} k (l : list A) : incl (firstn k l) l.
Proof.
  intros x Hx. rewrite <- (firstn_skipn k l). apply in_or_app. now left.
Qed.

Lemma map_filter_nodup {A B} (f : A -> B) (p : A -> bool) l :
  NoDup (map f l) -> NoDup (map f (filter p l)).
Proof.
  induction l as [|x l IH]; simpl; intros ND; [constructor|].
  inversion ND as [|? ? Hx ND']. subst.
  destruct (p x); simpl; [|now apply IH].
  constructor; [|now apply IH].
  intros Hin. apply Hx. apply in_map_iff in Hin as (y & <- & Hy).
  apply filter_In in Hy as [Hy _]. now apply in_map.
Qed.

(** On a finished run nothing is in flight and the queue is empty. *)
Lemma finished_reports v proxies tr w f :
  run (init_world v proxies) tr w ->
  m_final (w_master w) = Some f ->
  w_inflight w = [] /\ Permutation (map o_proxy tr) proxies.
Proof.
  intros Hrun Hf.
  pose proof (run_inv_reach _ _ _ _ Hrun) as I.
  destruct (dispatched_perm _ _ _ _ Hrun) as (k & Hk & HP).
  destruct I as (_ & Hd & _ & _ & _ & _ & _ & _ & Hl & If). rewrite Hf in If.
  destruct If as [Hn _].
  assert (Hi : w_inflight w = [])
    by (destruct (w_inflight w) as [|a l] eqn:E; [reflexivity|cbn [Datatypes.length] in Hl; lia]).
  assert (Hq : m_proxies (w_master w) = [])
    by (destruct (m_proxies (w_master w)) as [|a l] eqn:E;
        [reflexivity|cbn [Datatypes.length] in Hl; lia]).
  split; [exact Hi|].
  rewrite Hi in HP. simpl in HP. rewrite HP.
  rewrite Hk in Hq. rewrite firstn_all2; [reflexivity|].
  pose proof (length_skipn k proxies) as L. rewrite Hq in L. simpl in L. lia.
Qed.

(** ** De-duplication over several files *)

Lemma existsb_mem x seen :
  existsb (fun y => if list_eq_dec ascii_dec x y then true else false) seen = true <-> In x seen.
Proof.
  rewrite existsb_exists. split.
  - intros (z & Hz & Hf). destruct (list_eq_dec ascii_dec x z); [now subst|discriminate].
  - intros H. exists x. split; [exact H|]. now destruct (list_eq_dec ascii_dec x x).
Qed.

Lemma dedup_acc_ext s1 s2 l :
  (forall x, In x s1 <-> In x s2) -> dedup_acc s1 l = dedup_acc s2 l.
Proof.
  revert s1 s2. induction l as [|x l IH]; intros s1 s2 H; simpl; [reflexivity|].
  destruct (existsb (fun y => if list_eq_dec ascii_dec x y then true else false) s1) eqn:E1;
    destruct (existsb (fun y => if list_eq_dec ascii_dec x y then true else false) s2) eqn:E2.
  - now apply IH.
  - apply existsb_mem, H, existsb_mem in E1. congruence.
  - apply existsb_mem, H, existsb_mem in E2. congruence.
  - f_equal. apply IH. intros y. simpl. rewrite H. tauto.
Qed.

Lemma dedup_acc_app seen l r :
  dedup_acc seen (l ++ r) = dedup_acc seen l ++ dedup_acc (l ++ seen) r.
Proof.
  revert seen. induction l as [|x l IH]; intros seen; simpl; [reflexivity|].
  destruct (existsb (fun y => if list_eq_dec ascii_dec x y then true else false) seen) eqn:E.
  - rewrite IH. f_equal. apply dedup_acc_ext. intros y. simpl. rewrite !in_app_iff.
    apply existsb_mem in E. split; [tauto|intros [<-|[H|H]]; tauto].
  - rewrite IH. simpl. f_equal. f_equal. apply dedup_acc_ext. intros y.
    simpl. rewrite !in_app_iff. simpl. tauto.
Qed.

Lemma dedup_acc_seen seen r : incl r seen -> dedup_acc seen r = [].
Proof.
  induction r as [|x r IH]; intros H; simpl; [reflexivity|].
  replace (existsb (fun y => if list_eq_dec ascii_dec x y then true else false) seen) with true
    by (symmetry; apply existsb_mem, H; now left).
  apply IH. intros y Hy. apply H. now right.
Qed.

(** ** Round-robin dispatch *)

Lemma start_workers_loop_spec W last i c q :
  1 <= W -> 1 <= last <= W + 1 ->
  let '(q', sent) := start_workers_loop W last i c q in
  (q', map snd sent) = start_loop i c q /\
  forall k t p, nth_error sent k = Some (t, p) -> t = (last - 1 + Z.of_nat k) mod W + 1.
Proof.
  intros HW. revert last i. induction q as [|p r IH]; intros last i Hl; simpl.
  - split; [reflexivity|]. intros [|k]; discriminate.
  - destruct (i <? c); [|split; [reflexivity|intros [|k]; discriminate]].
    set (target := if W <? last then 1 else last).
    assert (Ht : 1 <= target <= W /\ (target - 1 = (last - 1) mod W) /\
                 (forall k, (target + k) mod W = (last + k) mod W)).
    { subst target. destruct (W <? last) eqn:E.
      - apply Z.ltb_lt in E. assert (last = W + 1) by lia. subst last.
        split; [lia|]. split.
        + replace (W + 1 - 1) with (0 + 1 * W) by lia. rewrite Z.mod_add by lia.
          rewrite Z.mod_0_l by lia. lia.
        + intros k. replace (W + 1 + k) with ((1 + k) + 1 * W) by lia.
          now rewrite Z.mod_add by lia.
      - apply Z.ltb_ge in E. split; [lia|]. split; [|reflexivity].
        rewrite Z.mod_small by lia. lia. }
    destruct Ht as (Ht & Ht0 & HtS).
    specialize (IH (target + 1) (i + 1) ltac:(lia)).
    destruct (start_workers_loop W (target + 1) (i + 1) c r) as [q' sent].
    destruct (start_loop (i + 1) c r) as [q'' sent'].
    destruct IH as (IHe & IHk). inversion IHe. subst. simpl. split; [reflexivity|].
    intros [|k] t p'; simpl.
    + intros E. inversion E. subst.
      rewrite Z.add_0_r, <- Ht0. lia.
    + intros E. rewrite (IHk k t p' E).
      replace (target + 1 - 1 + Z.of_nat k) with (target + Z.of_nat k) by lia.
      rewrite HtS. f_equal. f_equal. lia.
Qed.

Lemma forked_ids_in W t : In t (forked_ids W) <-> 1 <= t <= W.
Proof.
  unfold forked_ids. rewrite in_map_iff. split.
  - intros (n & <- & Hn). apply in_seq in Hn. lia.
  - intros H. exists (Z.to_nat t). split; [lia|]. apply in_seq. lia.
Qed.

Lemma broadcast_forked W id :
  broadcast_to_workers (forked_ids W) id =
  match id with
  | Some i => if (1 <=? i) && (i <=? W) then [i] else forked_ids W
  | None => forked_ids W
  end.
Proof.
  destruct id as [i|]; simpl; [|reflexivity].
  destruct ((1 <=? i) && (i <=? W)) eqn:E.
  - apply andb_true_iff in E as [E1 E2]. apply Z.leb_le in E1, E2.
    replace (i =? 0) with false by (symmetry; apply Z.eqb_neq; lia).
    replace (existsb (Z.eqb i) (forked_ids W)) with true; [reflexivity|].
    symmetry. apply existsb_exists. exists i. split; [apply forked_ids_in; lia|apply Z.eqb_refl].
  - destruct (negb (i =? 0) && existsb (Z.eqb i) (forked_ids W)) eqn:F; [|reflexivity].
    apply andb_true_iff in F as [F1 F2]. apply existsb_exists in F2 as (j & Hj & Hij).
    apply Z.eqb_eq in Hij. subst j. apply forked_ids_in in Hj.
    apply andb_false_iff in E as [E|E]; apply Z.leb_gt in E; lia.
Qed.

(** ** runTime *)

Lemma elapsed_of_spec diff :
  0 < diff ->
  let e := elapsed_of diff in
  0 <= e_days e /\ 0 <= e_hours e < 24 /\ 0 <= e_mins e < 60 /\
  0 <= e_secs e < 60 /\ 0 <= e_ms e < 1000 /\
  e_days e * 86400000 + e_hours e * 3600000 + e_mins e * 60000 +
  e_secs e * 1000 + e_ms e = diff.
Proof.
  intros H. unfold elapsed_of. replace (0 <? diff) with true by (symmetry; now apply Z.ltb_lt).
  simpl. rewrite !Z.rem_mod_nonneg by (try apply Z.mod_pos_bound; try apply Z.div_pos; lia).
  assert (Ht : 0 <= diff / 1000) by (apply Z.div_pos; lia).
  pose proof (Z.div_mod diff 1000 ltac:(lia)) as D0.
  pose proof (Z.mod_pos_bound diff 1000 ltac:(lia)) as B0.
  set (t := diff / 1000) in *.
  pose proof (Z.div_mod t 86400 ltac:(lia)) as D1.
  pose proof (Z.mod_pos_bound t 86400 ltac:(lia)) as B1.
  assert (0 <= t / 86400) by (apply Z.div_pos; lia).
  set (t1 := t mod 86400) in *.
  pose proof (Z.div_mod t1 3600 ltac:(lia)) as D2.
  pose proof (Z.mod_pos_bound t1 3600 ltac:(lia)) as B2.
  assert (0 <= t1 / 3600) by (apply Z.div_pos; lia).
  set (t2 := t1 mod 3600) in *.
  pose proof (Z.div_mod t2 60 ltac:(lia)) as D3.
  pose proof (Z.mod_pos_bound t2 60 ltac:(lia)) as B3.
  assert (0 <= t2 / 60) by (apply Z.div_pos; lia).
  set (t3 := t2 mod 60) in *.
  clearbody t t1 t2 t3.
  generalize dependent (t / 86400). generalize dependent (t1 / 3600).
  generalize dependent (t2 / 60). generalize dependent (diff mod 1000).
  intros. lia.
Qed.

Lemma elapsed_of_eq diff d h m sc ms :
  0 <= d -> 0 <= h < 24 -> 0 <= m < 60 -> 0 <= sc < 60 -> 0 <= ms < 1000 ->
  diff = d * 86400000 + h * 3600000 + m * 60000 + sc * 1000 + ms -> 0 < diff ->
  elapsed_of diff = {| e_days := d; e_hours := h; e_mins := m; e_secs := sc; e_ms := ms |}.
Proof.
  intros Hd Hh Hm Hs Hms Hdiff Hpos.
  pose proof (elapsed_of_spec diff Hpos) as S. simpl in S.
  destruct (elapsed_of diff) as [d' h' m' sc' ms']. simpl in S.
  assert (ms' = ms) by lia. assert (sc' = sc) by lia. assert (m' = m) by lia.
  assert (h' = h) by lia. assert (d' = d) by lia. subst. reflexivity.
Qed.

Ltac decide_Z_tests :=
  repeat match goal with
  | |- context [?a <? ?b] =>
      first [ rewrite (proj2 (Z.ltb_lt a b)) by lia
            | rewrite (proj2 (Z.ltb_ge a b)) by lia ]
  | |- context [?a =? ?b] =>
      first [ rewrite (proj2 (Z.eqb_eq a b)) by lia
            | rewrite (proj2 (Z.eqb_neq a b)) by lia ]
  end.

(** ** dateStamp and the [{date}] replacement *)

Lemma no_char_in c x : existsb (fun a => Ascii.eqb a c) x = false -> ~ In c x.
Proof.
  intros H Hin. assert (existsb (fun a => Ascii.eqb a c) x = true)
    by (apply existsb_exists; exists c; split; [exact Hin|apply Ascii.eqb_refl]).
  congruence.
Qed.

Lemma strip_prefix_app pre l : strip_prefix pre (pre ++ l) = Some l.
Proof. induction pre as [|a pre IH]; simpl; [reflexivity|]. now rewrite Ascii.eqb_refl. Qed.

Lemma strip_prefix_some pre l r : strip_prefix pre l = Some r -> l = pre ++ r.
Proof.
  revert l. induction pre as [|a pre IH]; intros l; simpl.
  - now intros [= ->].
  - destruct l as [|b l]; [discriminate|].
    destruct (Ascii.eqb a b) eqn:E; [|discriminate].
    apply Ascii.eqb_eq in E. subst. intros H. f_equal. now apply IH.
Qed.

Lemma replace_first_hit pat rep l rest :
  strip_prefix pat l = Some rest -> replace_first pat rep l = rep ++ rest.
Proof. destruct l as [|c r]; simpl; intros H; rewrite H; reflexivity. Qed.

(** ** Reading a directory *)







(** ** userAgent *)

Lemma agents_length : List.length agents = 15%nat.
Proof. reflexivity. Qed.

(** Math.floor of the rounded product is an index from 0 to 14. *)
Lemma user_agent_index m k :
  is_double01 m k = true ->
  exists i, (i < 15)%nat /\ user_agent m k = nth_error agents i.
Proof.
  unfold is_double01. intros H. rewrite !andb_true_iff, !Z.leb_le, !Z.ltb_lt in H.
  destruct H as ((((Hm0 & Hm1) & Hk0) & Hk1) & Hmk).
  unfold user_agent, round53. rewrite agents_length. cbn [Z.of_nat Pos.of_succ_nat Pos.succ].
  set (n := m * 15).
  assert (Hn : 0 <= n < 2 ^ 57).
  { assert (2 ^ 57 = 2 ^ 53 * 16) by reflexivity. subst n. lia. }
  assert (Hsh : 0 <= Z.max 0 (Z.log2 n - 52) <= 4).
  { destruct (Z.eq_dec n 0) as [E|E].
    - rewrite E. simpl. lia.
    - assert (Z.log2 n < 57) by (apply Z.log2_lt_pow2; lia). lia. }
  set (sh := Z.max 0 (Z.log2 n - 52)) in *. clearbody sh.
  assert (HP : 1 <= 2 ^ sh <= 16).
  { split; [apply (Z.pow_le_mono_r 2 0 sh); lia|].
    apply (Z.pow_le_mono_r 2 sh 4); lia. }
  set (P := 2 ^ sh) in *. clearbody P.
  pose proof (Z.div_mod n P ltac:(lia)) as D. pose proof (Z.mod_pos_bound n P ltac:(lia)) as B.
  set (q := n / P) in *. set (r := n mod P) in *. clearbody q r.
  assert (Hq : 0 <= q) by nia.
  assert (HK : m < 2 ^ k) by exact Hmk. assert (0 < 2 ^ k) by (apply Z.pow_pos_nonneg; lia).
  set (K := 2 ^ k) in *. clearbody K.
  set (q' := if 2 * r <? P then q else if P <? 2 * r then q + 1
             else if Z.even q then q else q + 1).
  assert (Hq' : q <= q' /\ (q' = q \/ P <= 2 * r /\ q' = q + 1)).
  { subst q'. destruct (Z.ltb_spec (2 * r) P); [lia|].
    destruct (Z.ltb_spec P (2 * r)); [lia|]. destruct (Z.even q); lia. }
  clearbody q'.
  assert (Hlt : q' * P < 15 * K) by nia.
  assert (Hi : 0 <= q' * P / K < 15).
  { split; [apply Z.div_pos; nia|]. apply Z.div_lt_upper_bound; lia. }
  rewrite (proj2 (Z.ltb_ge _ 0)) by lia.
  exists (Z.to_nat (q' * P / K)). split; [lia|reflexivity].
Qed.

Lemma not_in_of_existsb (p : ascii -> bool) c x :
  existsb p x = false -> p c = true -> ~ In c x.
Proof.
  intros H Hc Hin. assert (existsb p x = true) by (apply existsb_exists; now exists c).
  congruence.
Qed.

(** * Extra properties *)

(** X1 (readProxies, saveProxies): the parser's output, written one per line
    as [saveProxies] writes it, parses back to exactly the same list. *)
Theorem readProxies_reparse_output blobs :
  parse_proxies [js_join [newline] (parse_proxies blobs)] = parse_proxies blobs.
Proof.
  apply (reparse_selection blobs); [apply parse_proxies_nodup|apply incl_refl].
Qed.

(** X2 (startWorkers, dispatchRequest): on a duplicate-free input, the
    proxies in flight and the ones reported never repeat and all come from
    the input: no candidate is dispatched twice. *)
Theorem dispatch_each_candidate_once v proxies tr w :
  NoDup proxies ->
  run (init_world v proxies) tr w ->
  NoDup (w_inflight w ++ map o_proxy tr) /\ incl (w_inflight w ++ map o_proxy tr) proxies.
Proof.
  intros ND Hrun. destruct (dispatched_perm _ _ _ _ Hrun) as (k & _ & HP). split.
  - apply (Permutation_NoDup (Permutation_sym HP)).
    rewrite <- (firstn_skipn k proxies) in ND. exact (NoDup_app_remove_r _ _ ND).
  - intros x Hx. apply (firstn_incl k). exact (Permutation_in _ HP Hx).
Qed.

Lemma dispatch_each_candidate_once_witness :
  NoDup demo_proxies /\
  run (init_world demo_v demo_proxies) [demo_d1; demo_d2] demo_w2 /\
  NoDup (w_inflight demo_w2 ++ map o_proxy [demo_d1; demo_d2]) /\
  incl (w_inflight demo_w2 ++ map o_proxy [demo_d1; demo_d2]) demo_proxies.
Proof.
  assert (ND : NoDup demo_proxies)
    by (unfold demo_proxies; apply NoDup_cons; [simpl; intros [H|[]]; discriminate H|];
        apply NoDup_cons; [intros []|apply NoDup_nil]).
  split; [exact ND|]. split; [exact demo_run|].
  exact (dispatch_each_candidate_once demo_v demo_proxies _ _ ND demo_run).
Defined.

(** X3 (main's message handler): once the done branch has run, no probe is
    in flight and the reports received are a permutation of the input:
    every candidate was reported exactly as often as it occurs. *)
Theorem finished_run_reports_all v proxies tr w f :
  run (init_world v proxies) tr w ->
  m_final (w_master w) = Some f ->
  w_inflight w = [] /\ Permutation (map o_proxy tr) proxies.
Proof. exact (finished_reports v proxies tr w f). Qed.

Lemma finished_run_reports_all_witness :
  run (init_world demo_v demo_proxies) [demo_d1; demo_d2] demo_w2 /\
  m_final (w_master demo_w2) = Some (Saved (1 # 2) [s "1.2.3.4:8080"]) /\
  w_inflight demo_w2 = [] /\ Permutation (map o_proxy [demo_d1; demo_d2]) demo_proxies.
Proof.
  assert (Hf : m_final (w_master demo_w2) = Some (Saved (1 # 2) [s "1.2.3.4:8080"]))
    by (vm_compute; reflexivity).
  split; [exact demo_run|]. split; [exact Hf|].
  exact (finished_run_reports_all _ _ _ _ _ demo_run Hf).
Defined.

(** X4 (saveProxies, readProxies): the file [saveProxies] writes holds the
    verified proxies, and read back as an input file it parses to exactly
    that list. *)
Theorem saved_file_reparses v blobs tr w avg written outputFile stamp :
  run (init_world v (parse_proxies blobs)) tr w ->
  m_final (w_master w) = Some (Saved avg written) ->
  written = map o_proxy (filter ok tr) /\
  parse_proxies [snd (save_proxies outputFile stamp written)] = written.
Proof.
  intros Hrun Hf.
  pose proof (run_inv_reach _ _ _ _ Hrun) as I.
  destruct I as (_ & _ & _ & _ & Hv & _ & _ & _ & _ & If). rewrite Hf in If.
  destruct If as [_ Hfin]. unfold finish in Hfin.
  destruct (good (m_stats (w_master w)) <? 1); [discriminate|].
  injection Hfin as _ ->. rewrite Hv.
  split; [reflexivity|]. simpl.
  destruct (dispatched_perm _ _ _ _ Hrun) as (k & _ & HP).
  assert (ND : NoDup (parse_proxies blobs)) by apply parse_proxies_nodup.
  rewrite <- (firstn_skipn k) in ND. apply NoDup_app_remove_r in ND.
  apply (Permutation_NoDup (Permutation_sym HP)), NoDup_app_remove_l in ND.
  apply (reparse_selection blobs); [now apply map_filter_nodup|].
  intros x Hx. apply in_map_iff in Hx as (d & <- & Hd). apply filter_In in Hd as [Hd _].
  apply (firstn_incl k). apply (Permutation_in _ HP). apply in_or_app. right.
  now apply in_map.
Qed.

Lemma saved_file_reparses_witness :
  run (init_world demo_v (parse_proxies [demo_blob])) [demo_d1; demo_d2] demo_w2 /\
  m_final (w_master demo_w2) = Some (Saved (1 # 2) [s "1.2.3.4:8080"]) /\
  [s "1.2.3.4:8080"] = map o_proxy (filter ok [demo_d1; demo_d2]) /\
  parse_proxies [snd (save_proxies (s "out_{date}.txt") (s "05-11-2016") [s "1.2.3.4:8080"])]
    = [s "1.2.3.4:8080"].
Proof.
  assert (Hr : run (init_world demo_v (parse_proxies [demo_blob])) [demo_d1; demo_d2] demo_w2)
    by (replace (parse_proxies [demo_blob]) with demo_proxies by (vm_compute; reflexivity);
        exact demo_run).
  assert (Hf : m_final (w_master demo_w2) = Some (Saved (1 # 2) [s "1.2.3.4:8080"]))
    by (vm_compute; reflexivity).
  split; [exact Hr|]. split; [exact Hf|].
  exact (saved_file_reparses _ _ _ _ _ _ _ _ Hr Hf).
Defined.

(** X5 (readProxies): files whose valid lines all occurred in the files read
    before them add nothing; the result is the one of the earlier files. *)
Theorem readProxies_repeated_files blobs blobs' :
  incl (validate (read_lines blobs')) (validate (read_lines blobs)) ->
  parse_proxies (blobs ++ blobs') = parse_proxies blobs.
Proof.
  intros H. unfold parse_proxies, read_lines, validate, dedup in *.
  rewrite flat_map_app, filter_app, dedup_acc_app, app_nil_r.
  rewrite (dedup_acc_seen _ (filter _ (flat_map _ blobs'))) by exact H. apply app_nil_r.
Qed.

Lemma readProxies_repeated_files_witness :
  incl (validate (read_lines [s "1.2.3.4:8080"])) (validate (read_lines [crlf_blob])) /\
  parse_proxies ([crlf_blob] ++ [s "1.2.3.4:8080"]) = parse_proxies [crlf_blob].
Proof.
  assert (H : incl (validate (read_lines [s "1.2.3.4:8080"])) (validate (read_lines [crlf_blob]))).
  { intros x Hx. vm_compute in Hx. destruct Hx as [<-|[]]. vm_compute. right. left. reflexivity. }
  split; [exact H|]. exact (readProxies_repeated_files _ _ H).
Defined.

(** X6 (startWorkers, broadcastToWorkers): the initial loop addresses its
    k-th proxy to worker [k mod workers + 1], and every such id names one
    forked worker, so each proxy goes to exactly one worker. *)
Theorem startWorkers_round_robin v proxies :
  1 <= workers v ->
  let '(m, sent0) := on_read_proxies v proxies in
  let '(q, sent) := start_workers_loop (workers v) 1 0 (m_conc m) proxies in
  q = m_proxies m /\ map snd sent = sent0 /\
  forall k t p, nth_error sent k = Some (t, p) ->
    t = Z.of_nat k mod workers v + 1 /\
    broadcast_to_workers (forked_ids (workers v)) (Some t) = [t].
Proof.
  intros HW. unfold on_read_proxies.
  set (c := if Z.of_nat (List.length proxies) <? concurrentRequests v
            then Z.of_nat (List.length proxies) else concurrentRequests v).
  pose proof (start_workers_loop_spec (workers v) 1 0 c proxies HW ltac:(lia)) as S.
  destruct (start_loop 0 c proxies) as [q0 sent0].
  simpl m_conc. destruct (start_workers_loop (workers v) 1 0 c proxies) as [q sent].
  destruct S as (Se & Sk). injection Se as -> ->. split; [reflexivity|]. split; [reflexivity|].
  intros k t p Hk. specialize (Sk k t p Hk).
  replace (1 - 1 + Z.of_nat k) with (Z.of_nat k) in Sk by lia.
  split; [exact Sk|]. rewrite broadcast_forked.
  pose proof (Z.mod_pos_bound (Z.of_nat k) (workers v) ltac:(lia)).
  replace ((1 <=? t) && (t <=? workers v)) with true; [reflexivity|].
  symmetry. apply andb_true_iff. split; apply Z.leb_le; lia.
Qed.

Lemma startWorkers_round_robin_witness :
  let v := new_verify (Build_options None (Some 2) (Some 5) None None) 8 in
  1 <= workers v /\
  let '(m, sent0) := on_read_proxies v five_proxies in
  let '(q, sent) := start_workers_loop (workers v) 1 0 (m_conc m) five_proxies in
  q = m_proxies m /\ map snd sent = sent0 /\
  forall k t p, nth_error sent k = Some (t, p) ->
    t = Z.of_nat k mod workers v + 1 /\
    broadcast_to_workers (forked_ids (workers v)) (Some t) = [t].
Proof.
  intros v. assert (H : 1 <= workers v) by (vm_compute; discriminate).
  split; [exact H|]. exact (startWorkers_round_robin v five_proxies H).
Defined.

(** X7 (broadcastToWorkers): with the forked workers 1..W, an id in that
    range reaches one worker; [false] or any other id, even one that names
    no worker, sends the message to all W workers. *)
Theorem broadcastToWorkers_count W id :
  List.length (broadcast_to_workers (forked_ids W) id) =
  match id with
  | Some i => if (1 <=? i) && (i <=? W) then 1%nat else Z.to_nat W
  | None => Z.to_nat W
  end.
Proof.
  rewrite broadcast_forked. unfold forked_ids.
  destruct id as [i|]; [destruct ((1 <=? i) && (i <=? W))|]; simpl;
    rewrite ?length_map, ?length_seq; reflexivity.
Qed.

(** X8 (runTime): for a positive difference the days, hours, minutes,
    seconds and milliseconds decompose it exactly, each below its unit. *)
Theorem runTime_decomposition diff :
  0 < diff ->
  let e := elapsed_of diff in
  0 <= e_days e /\ 0 <= e_hours e < 24 /\ 0 <= e_mins e < 60 /\
  0 <= e_secs e < 60 /\ 0 <= e_ms e < 1000 /\
  e_days e * 86400000 + e_hours e * 3600000 + e_mins e * 60000 +
  e_secs e * 1000 + e_ms e = diff.
Proof. exact (elapsed_of_spec diff). Qed.

Lemma runTime_decomposition_witness :
  0 < 90061001 /\
  let e := elapsed_of 90061001 in
  0 <= e_days e /\ 0 <= e_hours e < 24 /\ 0 <= e_mins e < 60 /\
  0 <= e_secs e < 60 /\ 0 <= e_ms e < 1000 /\
  e_days e * 86400000 + e_hours e * 3600000 + e_mins e * 60000 +
  e_secs e * 1000 + e_ms e = 90061001.
Proof.
  assert (H : 0 < 90061001) by lia. split; [exact H|].
  exact (runTime_decomposition 90061001 H).
Defined.

(** X9 (runTime): a difference of zero or less (a start time not in the
    past) gives the empty string. *)
Theorem runTime_nonpositive_empty bold diff :
  diff <= 0 -> run_time bold diff = [].
Proof.
  intros H. unfold run_time, elapsed_of.
  rewrite (proj2 (Z.ltb_ge 0 diff)) by lia. simpl.
  rewrite (proj2 (Z.ltb_ge 0 diff)) by lia. reflexivity.
Qed.

Lemma runTime_nonpositive_empty_witness :
  -5 <= 0 /\ run_time (fun x => x) (-5) = [].
Proof.
  assert (H : -5 <= 0) by lia. split; [exact H|].
  exact (runTime_nonpositive_empty (fun x => x) (-5) H).
Defined.

(** X10 (runTime): under a minute the output is [S.MSs] with the
    milliseconds printed as a plain integer, without leading zeros (1005 ms
    prints as "1.5s"). *)
Theorem runTime_under_minute bold diff :
  0 < diff < 60000 ->
  run_time bold diff = bold (num (diff / 1000)) ++ s "." ++ bold (num (diff mod 1000)) ++ s "s".
Proof.
  intros H.
  pose proof (Z.div_mod diff 1000 ltac:(lia)) as D.
  pose proof (Z.mod_pos_bound diff 1000 ltac:(lia)) as B.
  assert (Hs : 0 <= diff / 1000 < 60) by (split; [apply Z.div_pos|apply Z.div_lt_upper_bound]; lia).
  unfold run_time.
  rewrite (elapsed_of_eq diff 0 0 0 (diff / 1000) (diff mod 1000)) by lia. simpl.
  destruct (Z.eq_dec (diff / 1000) 0) as [E|E].
  - rewrite E in *. decide_Z_tests. reflexivity.
  - decide_Z_tests. reflexivity.
Qed.

Lemma runTime_under_minute_witness :
  0 < 1005 < 60000 /\
  run_time (fun x => x) 1005 = num (1005 / 1000) ++ s "." ++ num (1005 mod 1000) ++ s "s".
Proof.
  assert (H : 0 < 1005 < 60000) by lia. split; [exact H|].
  exact (runTime_under_minute (fun x => x) 1005 H).
Defined.

(** X11 (runTime): once the duration reaches an hour (days included),
    seconds are printed without milliseconds, but when the seconds are 0
    the milliseconds are still printed as "0.MSs". *)
Theorem runTime_hours_seconds bold d h m sc ms :
  0 <= d -> 0 <= h <= 23 -> 1 <= d * 24 + h ->
  0 <= m <= 59 -> 0 <= sc <= 59 -> 0 <= ms <= 999 ->
  run_time bold (d * 86400000 + h * 3600000 + m * 60000 + sc * 1000 + ms) =
  (if 0 <? d then bold (num d) ++ s "d " else []) ++
  (if 0 <? h then bold (num h) ++ s "h " else []) ++
  (if 0 <? m then bold (num m) ++ s "m " else []) ++
  (if 0 <? sc then bold (num sc) ++ s "s"
   else if 0 <? ms then bold (num 0) ++ s "." ++ bold (num ms) ++ s "s" else []).
Proof.
  intros Hd Hh Hdh Hm Hs Hms. unfold run_time.
  rewrite (elapsed_of_eq _ d h m sc ms) by lia. simpl.
  destruct (Z.ltb_spec 0 d), (Z.ltb_spec 0 h); [| | |lia];
    destruct (Z.ltb_spec 0 m), (Z.ltb_spec 0 sc), (Z.ltb_spec 0 ms);
    decide_Z_tests; simpl; rewrite <- ?app_assoc; try reflexivity;
    assert (sc = 0) by lia; subst; reflexivity.
Qed.

Lemma runTime_hours_seconds_witness :
  0 <= 2 /\ 0 <= 0 <= 23 /\ 1 <= 2 * 24 + 0 /\ 0 <= 0 <= 59 /\ 0 <= 0 <= 59 /\ 0 <= 5 <= 999 /\
  run_time (fun x => x) (2 * 86400000 + 0 * 3600000 + 0 * 60000 + 0 * 1000 + 5) =
  (if 0 <? 2 then num 2 ++ s "d " else []) ++
  (if 0 <? 0 then num 0 ++ s "h " else []) ++
  (if 0 <? 0 then num 0 ++ s "m " else []) ++
  (if 0 <? 0 then num 0 ++ s "s"
   else if 0 <? 5 then num 0 ++ s "." ++ num 5 ++ s "s" else []).
Proof.
  assert (H0 : 0 <= 2) by lia. assert (H1 : 0 <= 0 <= 23) by lia.
  assert (H2 : 1 <= 2 * 24 + 0) by lia. assert (H3 : 0 <= 0 <= 59) by lia.
  assert (H4 : 0 <= 5 <= 999) by lia.
  split; [exact H0|]. split; [exact H1|]. split; [exact H2|]. split; [exact H3|].
  split; [exact H3|]. split; [exact H4|].
  exact (runTime_hours_seconds (fun x => x) 2 0 0 0 5 H0 H1 H2 H3 H3 H4).
Defined.

(** X12 (dateStamp): an ISO date [Y-M-DT...] becomes [D-M-Y]; for a
    negative (extended) year, whose ISO form starts with '-', the stamp
    ends with a stray '-'. *)
Theorem dateStamp_format y m d rest :
  existsb (fun c => Ascii.eqb c "-"%char || Ascii.eqb c "T"%char) (y ++ m ++ d) = false ->
  date_stamp (y ++ "-"%char :: m ++ "-"%char :: d ++ "T"%char :: rest) =
    d ++ "-"%char :: m ++ "-"%char :: y /\
  date_stamp ("-"%char :: y ++ "-"%char :: m ++ "-"%char :: d ++ "T"%char :: rest) =
    d ++ "-"%char :: m ++ "-"%char :: y ++ ["-"%char].
Proof.
  intros H. rewrite !existsb_app in H.
  apply orb_false_iff in H as [Hy H]. apply orb_false_iff in H as [Hm Hd].
  assert (Nd : forall x, existsb (fun c => Ascii.eqb c "-"%char || Ascii.eqb c "T"%char) x = false ->
                 ~ In "-"%char x /\ ~ In "T"%char x)
    by (intros x Hx; split; apply (not_in_of_existsb _ _ _ Hx); reflexivity).
  destruct (Nd y Hy) as [Dy Ty], (Nd m Hm) as [Dm Tm], (Nd d Hd) as [Dd Td].
  assert (Tymd : ~ In "T"%char (y ++ "-"%char :: m ++ "-"%char :: d))
    by (intros Hin; apply in_app_iff in Hin as [Hin|[E|Hin]]; [exact (Ty Hin)|discriminate E|];
        apply in_app_iff in Hin as [Hin|[E|Hin]]; [exact (Tm Hin)|discriminate E|exact (Td Hin)]).
  assert (Split : split_on "-"%char (y ++ "-"%char :: m ++ "-"%char :: d) = [y; m; d])
    by (rewrite split_on_app_sep, split_on_app_sep, split_on_nosep by assumption; reflexivity).
  unfold date_stamp. split.
  - replace (y ++ "-"%char :: m ++ "-"%char :: d ++ "T"%char :: rest)
      with ((y ++ "-"%char :: m ++ "-"%char :: d) ++ "T"%char :: rest)
      by (rewrite <- app_assoc; simpl; rewrite <- app_assoc; reflexivity).
    rewrite split_on_app_sep by exact Tymd. simpl nth. rewrite Split.
    simpl. now rewrite app_nil_r.
  - replace ("-"%char :: y ++ "-"%char :: m ++ "-"%char :: d ++ "T"%char :: rest)
      with (("-"%char :: y ++ "-"%char :: m ++ "-"%char :: d) ++ "T"%char :: rest)
      by (simpl; rewrite <- app_assoc; simpl; rewrite <- app_assoc; reflexivity).
    rewrite split_on_app_sep by (simpl; intros [E|E]; [discriminate|exact (Tymd E)]).
    simpl nth. simpl split_on at 1. rewrite Split.
    simpl. reflexivity.
Qed.

Lemma dateStamp_format_witness :
  existsb (fun c => Ascii.eqb c "-"%char || Ascii.eqb c "T"%char)
    (s "2016" ++ s "11" ++ s "05") = false /\
  date_stamp (s "2016" ++ "-"%char :: s "11" ++ "-"%char :: s "05" ++ "T"%char :: s "10:00:00.000Z") =
    s "05" ++ "-"%char :: s "11" ++ "-"%char :: s "2016" /\
  date_stamp ("-"%char :: s "2016" ++ "-"%char :: s "11" ++ "-"%char :: s "05" ++ "T"%char :: s "10:00:00.000Z") =
    s "05" ++ "-"%char :: s "11" ++ "-"%char :: s "2016" ++ ["-"%char].
Proof.
  assert (H : existsb (fun c => Ascii.eqb c "-"%char || Ascii.eqb c "T"%char)
                (s "2016" ++ s "11" ++ s "05") = false) by reflexivity.
  split; [exact H|]. exact (dateStamp_format _ _ _ (s "10:00:00.000Z") H).
Defined.

(** X13 (readProxies, saveProxies): in a path, [{date}] is replaced by the
    stamp at its first occurrence only: when no [{date}] starts inside
    [pre], the one right after [pre] is replaced and any later one kept. *)
Theorem date_path_first_only stamp pre post :
  forallb (fun i => match strip_prefix date_pat (skipn i (pre ++ date_pat ++ post)) with
                    | None => true | Some _ => false end)
    (seq 0 (List.length pre)) = true ->
  replace_first date_pat stamp (pre ++ date_pat ++ post) = pre ++ stamp ++ post.
Proof.
  intros H. rewrite forallb_forall in H.
  assert (H' : forall i, (i < List.length pre)%nat ->
                 strip_prefix date_pat (skipn i (pre ++ date_pat ++ post)) = None).
  { intros i Hi. specialize (H i (proj2 (in_seq _ _ _) (conj (Nat.le_0_l i) Hi))).
    destruct strip_prefix; [discriminate|reflexivity]. }
  clear H. induction pre as [|c pre IH].
  - cbn [app]. apply replace_first_hit, strip_prefix_app.
  - pose proof (H' 0%nat ltac:(cbn [List.length]; lia)) as H0. cbn [skipn] in H0.
    cbn [app] in H0 |- *. cbn [replace_first]. rewrite H0. f_equal.
    apply IH. intros i Hi. exact (H' (S i) ltac:(cbn [List.length]; lia)).
Qed.

Lemma date_path_first_only_witness :
  forallb (fun i => match strip_prefix date_pat (skipn i (s "a{b}/" ++ date_pat ++ s "_{date}.txt")) with
                    | None => true | Some _ => false end)
    (seq 0 (List.length (s "a{b}/"))) = true /\
  replace_first date_pat (s "05-11-2016") (s "a{b}/" ++ date_pat ++ s "_{date}.txt") =
    s "a{b}/" ++ s "05-11-2016" ++ s "_{date}.txt".
Proof.
  assert (H : forallb (fun i => match strip_prefix date_pat
                                  (skipn i (s "a{b}/" ++ date_pat ++ s "_{date}.txt")) with
                                | None => true | Some _ => false end)
                (seq 0 (List.length (s "a{b}/"))) = true) by (vm_compute; reflexivity).
  split; [exact H|]. exact (date_path_first_only _ _ (s "_{date}.txt") H).
Defined.



(** X15 (userAgent): for every double [Math.random()] can return, in
    [0, 1), the rounded double product with the list's length stays below
    15, so the index is in range and the result is one of the agents, never
    undefined. *)
Theorem userAgent_defined m k :
  is_double01 m k = true -> exists a, user_agent m k = Some a /\ In a agents.
Proof.
  intros H. pose proof (user_agent_index m k H) as (i & Hi & E).
  rewrite E. destruct (nth_error agents i) as [a|] eqn:N.
  - exists a. split; [reflexivity|]. eapply nth_error_In, N.
  - apply nth_error_None in N. rewrite agents_length in N. lia.
Qed.

Lemma userAgent_defined_witness :
  is_double01 1 1 = true /\ exists a, user_agent 1 1 = Some a /\ In a agents.
Proof.
  assert (H : is_double01 1 1 = true) by reflexivity.
  split; [exact H|]. exact (userAgent_defined 1 1 H).
Defined.

(** X16 (userAgent): every agent of the list is picked for some double
    [Math.random()] can return; index [i] is reached at [(i + 1) / 16]. *)
Theorem userAgent_each_reachable a :
  In a agents -> exists m k, is_double01 m k = true /\ user_agent m k = Some a.
Proof.
  intros H. apply In_nth_error in H as (n & Hn).
  assert (Hl : (n < 15)%nat) by (rewrite <- agents_length; apply nth_error_Some; congruence).
  exists (Z.of_nat n + 1), 4. rewrite <- Hn.
  do 15 (destruct n as [|n]; [split; vm_compute; reflexivity|]). lia.
Qed.

Lemma userAgent_each_reachable_witness :
  In (s "Opera/9.80 (Android; Opera Mini/7.5.34817/37.7011; U; en) Presto/2.12.423 Version/12.16") agents /\
  exists m k, is_double01 m k = true /\
    user_agent m k = Some (s "Opera/9.80 (Android; Opera Mini/7.5.34817/37.7011; U; en) Presto/2.12.423 Version/12.16").
Proof.
  assert (H : In (s "Opera/9.80 (Android; Opera Mini/7.5.34817/37.7011; U; en) Presto/2.12.423 Version/12.16") agents)
    by (apply (nth_error_In agents 11); reflexivity).
  split; [exact H|]. exact (userAgent_each_reachable _ H).
Defined.

(** X17 (command line, Verify): the [-n] flag stores [opts.nooutput], while
    the constructor reads [options.noOutput]; no command line turns output
    off. *)
Theorem cli_nooutput_never_read f :
  verify_noOutput (cli_opt_keys f) = false /\
  (fl_nooutput f = true <-> In (s "nooutput") (cli_opt_keys f)).
Proof.
  split.
  - unfold verify_noOutput, cli_opt_keys. rewrite !existsb_app.
    repeat (apply orb_false_iff; split);
      match goal with |- context [if ?b then _ else _] => destruct b end; reflexivity.
  - unfold cli_opt_keys. split.
    + intros ->. rewrite !in_app_iff. do 10 right. left. now left.
    + destruct (fl_nooutput f); [reflexivity|]. rewrite !in_app_iff.
      repeat match goal with |- context [if ?b then _ else _] => destruct b end;
        simpl; intros H;
        repeat match goal with
        | H : _ \/ _ |- _ => destruct H as [H|H]
        | H : False |- _ => destruct H
        | H : _ = _ |- _ => discriminate H
        end.
Qed.

(** X18 (command line, Verify): with [-w d] a single digit from 1 to 4
    and [-c c] a decimal string of two or more digits without a leading
    zero, [c] is numerically above [d], yet the two are compared as
    strings: [concurrentRequests] stays the string [c] only when its first
    digit is at least [d], and otherwise becomes [d], below the requested
    [c] ([-w 2 -c 10] gives 2). *)
Theorem cli_limits_compare_as_strings d c :
  in_range 49 52 d = true -> digits c = true -> (2 <= List.length c)%nat ->
  hd_error c <> Some "0"%char ->
  dec_value [d] < dec_value c /\
  exists lim, cli_limits [d] c = Some (JStr [d], lim) /\
    to_number lim = Some (if (code (hd "0"%char c) <? code d)%nat
                          then dec_value [d] else dec_value c).
Proof.
  intros Hd Hc Hl H0. apply in_range_spec in Hd.
  destruct c as [|c0 [|c1 rest]]; cbn [List.length] in Hl; try lia.
  unfold digits in Hc. apply andb_true_iff in Hc as [_ Hc].
  cbn [forallb] in Hc. apply andb_true_iff in Hc as [H0d Hc].
  apply andb_true_iff in Hc as [H1d Hc]. apply in_range_spec in H0d, H1d.
  assert (Hc0 : code c0 <> 48%nat).
  { intros E. apply H0. f_equal. rewrite <- (ascii_nat_embedding c0). unfold code in E.
    rewrite E. reflexivity. }
  assert (Vd : dec_value [d] = Z.of_nat (code d) - 48) by reflexivity.
  assert (Vc : 10 <= dec_value (c0 :: c1 :: rest)).
  { unfold dec_value. cbn [fold_left].
    pose proof (fold_left_digits_ge rest (((0 * 10 + (Z.of_nat (code c0) - 48)) * 10 +
                                            (Z.of_nat (code c1) - 48))) Hc ltac:(lia)).
    lia. }
  split; [lia|].
  unfold cli_limits, js_gt, to_number, digits. cbn [forallb List.length].
  unfold is_digit. rewrite (proj2 (in_range_spec _ _ _)) by lia. cbn [andb Nat.leb].
  rewrite Vd. rewrite (proj2 (Z.ltb_ge _ _)) by lia.
  eexists. split; [reflexivity|]. cbn [str_lt hd].
  destruct (Nat.ltb_spec (code c0) (code d)).
  - simpl. rewrite (proj2 (in_range_spec _ _ _)) by lia. reflexivity.
  - unfold is_digit in Hc.
    destruct (Nat.ltb_spec (code d) (code c0)); simpl;
      rewrite (proj2 (in_range_spec _ _ c0)) by lia;
      rewrite (proj2 (in_range_spec _ _ c1)) by lia; rewrite Hc; reflexivity.
Qed.

Lemma cli_limits_compare_as_strings_witness :
  in_range 49 52 "2"%char = true /\ digits (s "10") = true /\ (2 <= List.length (s "10"))%nat /\
  hd_error (s "10") <> Some "0"%char /\
  dec_value [ "2"%char ] < dec_value (s "10") /\
  exists lim, cli_limits [ "2"%char ] (s "10") = Some (JStr [ "2"%char ], lim) /\
    to_number lim = Some (if (code (hd "0"%char (s "10")) <? code "2"%char)%nat
                          then dec_value [ "2"%char ] else dec_value (s "10")).
Proof.
  assert (H1 : in_range 49 52 "2"%char = true) by reflexivity.
  assert (H2 : digits (s "10") = true) by reflexivity.
  assert (H3 : (2 <= List.length (s "10"))%nat) by (simpl; lia).
  assert (H4 : hd_error (s "10") <> Some "0"%char) by discriminate.
  split; [exact H1|]. split; [exact H2|]. split; [exact H3|]. split; [exact H4|].
  exact (cli_limits_compare_as_strings _ _ H1 H2 H3 H4).
Defined.

(** * The request of a probe, on a parsed candidate *)

Lemma trim_start_split l :
  exists a, l = a ++ trim_start l /\ forallb is_js_ws a = true.
Proof.
  induction l as [|c r IH]; simpl; [now exists []|].
  destruct (is_js_ws c) eqn:E.
  - destruct IH as (a & H1 & H2). exists (c :: a). simpl. rewrite E, H2.
    split; [f_equal; exact H1|reflexivity].
  - now exists [].
Qed.

(** [trim] only drops white space at both ends. *)
Lemma trim_split l :
  exists a b, l = a ++ trim l ++ b /\ forallb is_js_ws a = true /\ forallb is_js_ws b = true.
Proof.
  destruct (trim_start_split l) as (a & Ha & Wa).
  destruct (trim_start_split (rev (trim_start l))) as (b & Hb & Wb).
  exists a, (rev b). unfold trim. split; [|split; [exact Wa|]].
  - rewrite Ha at 1. f_equal. apply (f_equal (@rev _)) in Hb.
    rewrite rev_involutive, rev_app_distr in Hb. exact Hb.
  - apply forallb_forall. intros x Hx. apply in_rev in Hx.
    rewrite forallb_forall in Wb. now apply Wb.
Qed.

Lemma forallb_not_in (p : ascii -> bool) c x :
  forallb p x = true -> p c = false -> ~ In c x.
Proof.
  intros H Hc Hin. rewrite forallb_forall in H. specialize (H c Hin). congruence.
Qed.

Lemma not_in_app_sep (c d : ascii) x y :
  ~ In c x -> c <> d -> ~ In c y -> ~ In c (x ++ d :: y).
Proof.
  intros Hx Hd Hy Hin. apply in_app_iff in Hin as [H|[H|H]]; [exact (Hx H)|congruence|exact (Hy H)].
Qed.

(** A parsed candidate has exactly one ':'; [proxy.split(':')] gives the
    two sides of it. *)
Lemma candidate_fields blobs e :
  In e (parse_proxies blobs) ->
  e = proxy_host e ++ ":"%char :: proxy_port e /\
  ~ In ":"%char (proxy_host e) /\ ~ In ":"%char (proxy_port e).
Proof.
  intros H. apply parse_proxies_test, ip_port_test_spec in H
    as (o1 & o2 & o3 & o4 & p & E & (_ & D1 & _) & (_ & D2 & _) & (_ & D3 & _) & (_ & D4 & _) & (_ & Dp)).
  destruct (trim_split e) as (a & b & Hab & Wa & Wb). rewrite E in Hab.
  assert (Nd : forall x, forallb is_digit x = true -> ~ In ":"%char x)
    by (intros x Hx; apply (forallb_not_in _ _ _ Hx); reflexivity).
  assert (Nw : forall x, forallb is_js_ws x = true -> ~ In ":"%char x)
    by (intros x Hx; apply (forallb_not_in _ _ _ Hx); reflexivity).
  set (h := a ++ o1 ++ "."%char :: o2 ++ "."%char :: o3 ++ "."%char :: o4).
  assert (Eh : e = h ++ ":"%char :: p ++ b)
    by (rewrite Hab; subst h; repeat (rewrite <- app_assoc; simpl); reflexivity).
  assert (Nh : ~ In ":"%char h).
  { subst h. intros Hin. apply in_app_iff in Hin as [Hin|Hin]; [exact (Nw a Wa Hin)|].
    revert Hin. repeat apply not_in_app_sep; auto; discriminate. }
  assert (Np : ~ In ":"%char (p ++ b)).
  { intros Hin. apply in_app_iff in Hin as [Hin|Hin]; [exact (Nd p Dp Hin)|exact (Nw b Wb Hin)]. }
  unfold proxy_host, proxy_port. rewrite Eh, split_on_app_sep by exact Nh.
  rewrite split_on_nosep by exact Np. simpl. auto.
Qed.

(** C9 (amended): for every probe, that is for every candidate the parser
    produced, and whatever hostname [url.parse] gives for the target URL,
    the request is a GET whose connection goes to the two fields of the
    proxy string around its one ':', whose request target is the full
    target URL (absolute form) and whose [Host] header is the target URL's
    hostname, independent of the proxy. *)
Theorem request_shape url_hostname v blobs proxy ua :
  In proxy (parse_proxies blobs) ->
  let r := verify_request url_hostname v proxy ua in
  rq_method r = s "GET" /\
  proxy = rq_host r ++ ":"%char :: rq_port r /\
  ~ In ":"%char (rq_host r) /\ ~ In ":"%char (rq_port r) /\
  rq_path r = url v /\ rq_header_host r = url_hostname (url v).
Proof.
  intros H. destruct (candidate_fields blobs proxy H) as (E & Nh & Np).
  cbv zeta. unfold verify_request.
  cbn [rq_method rq_host rq_port rq_path rq_header_host].
  repeat split; first [exact E | exact Nh | exact Np | reflexivity].
Qed.

Lemma request_shape_witness :
  In (s "9.9.9.9:3128") (parse_proxies [demo_blob]) /\
  let r := verify_request (fun _ => Some (s "digg.com")) (new_verify no_options 4)
             (s "9.9.9.9:3128") (s "Opera/9.80") in
  rq_method r = s "GET" /\
  s "9.9.9.9:3128" = rq_host r ++ ":"%char :: rq_port r /\
  ~ In ":"%char (rq_host r) /\ ~ In ":"%char (rq_port r) /\
  rq_path r = url (new_verify no_options 4) /\
  rq_header_host r = Some (s "digg.com").
Proof.
  assert (H : In (s "9.9.9.9:3128") (parse_proxies [demo_blob]))
    by (vm_compute; right; left; reflexivity).
  split; [exact H|].
  exact (request_shape (fun _ => Some (s "digg.com")) (new_verify no_options 4) [demo_blob]
           (s "9.9.9.9:3128") (s "Opera/9.80") H).
Defined.

(** * Run-level failures *)






